(** * QuizAtTime: a quiz gated behind a moment of a video's timeline

    Shallow embedding of [src/js/quiz-at-time.js] (a Wonderland Engine
    component) and the properties of its trigger / answer state machine.

    The component is a JavaScript object whose methods mutate its own
    fields and the fields of scene objects it holds references to.  The
    embedding passes both explicitly: [QuizAtTime] is the component
    ([this]), [World] holds everything the component reaches through a
    reference (the [active] flag of scene objects, the [text] of text
    components, click listeners) together with a log of the method calls
    it makes on collaborators.  Scene objects are identified by a key, so
    that two properties bound to the same object alias, as they do in
    JavaScript. *)

From Stdlib Require Import ZArith PrimFloat.
From Stdlib Require SpecFloat FloatOps FloatAxioms.
From stdpp Require Import gmap strings list.

Local Open Scope string_scope.
Local Open Scope list_scope.

(** ** Numbers

    [quizTime], [elapsed], [dt] and [currentTime] are JavaScript numbers.
    The code only uses the literal [0.0], [+=] and [>=] on them; the
    embedding is generic in these three operations. *)

Class Num (num : Type) : Type := {
  f0 : num;                        (* the literal 0.0 *)
  fadd : num -> num -> num;        (* x + y *)
  fge : num -> num -> bool;        (* x >= y *)
}.

(** The order laws used by the monotonicity statements, asked only of
    numbers [>= 0.0]: the fallback clock starts at [0.0] and the host
    passes deltas [>= 0.0].  Binary64 satisfies them ([NumOrder_float]);
    a NaN, which is [>=] nothing, is not [>= 0.0]. *)
Class NumOrder (num : Type) `{Num num} : Prop := {
  fge_zero : fge f0 f0 = true;
  fge_refl : forall x : num, fge x f0 = true -> fge x x = true;
  fge_trans : forall x y z : num,
    fge z f0 = true -> fge y z = true -> fge x y = true -> fge x z = true;
  fge_add : forall x d : num,
    fge x f0 = true -> fge d f0 = true -> fge (fadd x d) x = true;
}.

(** Binary64 floats, the numbers the code runs on. *)
#[export] Instance Num_float : Num float :=
  {| f0 := 0%float; fadd := PrimFloat.add; fge := fun x y => PrimFloat.leb y x |}.

(** [x >= 0.0] on the specification side of binary64: a zero of either
    sign, a positive finite number or the positive infinity. *)
Definition SFnonneg (x : SpecFloat.spec_float) : Prop :=
  SpecFloat.SFleb (SpecFloat.S754_zero false) x = true.

(** ** Scene objects, components and the world *)

(** Keys of scene objects and of components attached to them. *)
Abbreviation Object := positive (only parsing).
Abbreviation Component := positive (only parsing).

(** What [object.getComponent(name)] answers, for the two names the code
    asks for.  Fixed for the life of the quiz. *)
Record Scene : Type := {
  getVideoTexture : Object -> option Component;   (* getComponent('video-texture') *)
  getText : Object -> option Component;           (* getComponent('text') *)
}.

(** Method calls on collaborators, as they are made. *)
Inductive Call : Type :=
  | VideoPause                (* videoComponent.video.pause() *)
  | VideoPlay                 (* videoComponent.video.play() *)
  | AudioPlay                 (* audioSource.play() *)
  | Warn (answer : string).   (* console.warn(..., answer, 'not assigned') *)

#[export] Instance Call_eq_dec : EqDecision Call.
Proof. solve_decision. Defined.

Record World : Type := {
  active : gmap positive bool;              (* object.active *)
  text : gmap positive string;              (* textComponent.text *)
  listeners : gmap positive (list string);  (* CursorTarget.onClick of an object:
                                               the answers its listeners forward *)
  calls : list Call;                        (* most recent call first *)
}.

Definition setActive (o : Object) (b : bool) (w : World) : World :=
  {| active := <[o := b]> (active w); text := text w;
     listeners := listeners w; calls := calls w |}.

Definition setText (c : Component) (s : string) (w : World) : World :=
  {| active := active w; text := <[c := s]> (text w);
     listeners := listeners w; calls := calls w |}.

Definition call (c : Call) (w : World) : World :=
  {| active := active w; text := text w;
     listeners := listeners w; calls := c :: calls w |}.

(** [target.onClick.add(...)] on the CursorTarget of [o], which is
    fetched with [getComponent] or, when absent, created by
    [addComponent] with no listener. *)
Definition addListener (o : Object) (answer : string) (w : World) : World :=
  {| active := active w; text := text w;
     listeners := <[o := default [] (listeners w !! o) ++ [answer]]> (listeners w);
     calls := calls w |}.

(** What an observer of the scene sees: visibility flags and texts. *)
Definition observable (w : World) : gmap positive bool * gmap positive string :=
  (active w, text w).

(** ** The component *)

(** [static Properties], set from the editor. *)
Record Properties (num : Type) : Type := {
  videoObject : option Object;
  quizTime : num;
  buttonA : option Object;
  buttonB : option Object;
  buttonC : option Object;
  correctAnswer : string;
  feedbackObject : option Object;
}.

Arguments videoObject {num} _.
Arguments quizTime {num} _.
Arguments buttonA {num} _.
Arguments buttonB {num} _.
Arguments buttonC {num} _.
Arguments correctAnswer {num} _.
Arguments feedbackObject {num} _.

(** The component: its properties and the fields its methods assign.
    [audioSource] is read by [_onAnswer]; no property declares it. *)
Record QuizAtTime (num : Type) : Type := {
  props : Properties num;
  quizShown : bool;
  quizCompleted : bool;
  elapsed : num;
  videoComponent : option Component;
  feedbackText : option Component;
  audioSource : option Component;
}.

Arguments props {num} _.
Arguments quizShown {num} _.
Arguments quizCompleted {num} _.
Arguments elapsed {num} _.
Arguments videoComponent {num} _.
Arguments feedbackText {num} _.
Arguments audioSource {num} _.

(** The HTML video behind the video-texture component, as
    [videoComponent.video] shows it at the moment of a call. *)
Record Video (num : Type) : Type := { currentTime : num }.

Arguments currentTime {num} _.

(** The phase the two flags [quizShown] and [quizCompleted] encode. *)
Inductive Phase : Type := Waiting | Active | Completed.

#[export] Instance Phase_eq_dec : EqDecision Phase.
Proof. solve_decision. Defined.

(** The host calls [update] once per frame and [_onAnswer] on a click;
    each call sees the video as it is at that moment. *)
Inductive Event (num : Type) : Type :=
  | Tick (dt : num) (video : option (Video num))
  | Click (answer : string) (video : option (Video num)).

Arguments Tick {num} dt video.
Arguments Click {num} answer video.

Section Quiz.

Context {num : Type} `{Num num}.

Definition set_elapsed (e : num) (this : QuizAtTime num) : QuizAtTime num :=
  {| props := props this; quizShown := quizShown this;
     quizCompleted := quizCompleted this; elapsed := e;
     videoComponent := videoComponent this; feedbackText := feedbackText this;
     audioSource := audioSource this |}.

Definition set_quizShown (b : bool) (this : QuizAtTime num) : QuizAtTime num :=
  {| props := props this; quizShown := b;
     quizCompleted := quizCompleted this; elapsed := elapsed this;
     videoComponent := videoComponent this; feedbackText := feedbackText this;
     audioSource := audioSource this |}.

Definition set_quizCompleted (b : bool) (this : QuizAtTime num) : QuizAtTime num :=
  {| props := props this; quizShown := quizShown this;
     quizCompleted := b; elapsed := elapsed this;
     videoComponent := videoComponent this; feedbackText := feedbackText this;
     audioSource := audioSource this |}.

(** [this.videoComponent && this.videoComponent.video] *)
Definition haveVideo (this : QuizAtTime num) (video : option (Video num)) : bool :=
  match videoComponent this, video with
  | Some _, Some _ => true
  | _, _ => false
  end.

(** [_setButtonsActive(active)] *)
Definition _setButtonsActive (this : QuizAtTime num) (b : bool) (w : World) : World :=
  let w := match buttonA (props this) with Some o => setActive o b w | None => w end in
  let w := match buttonB (props this) with Some o => setActive o b w | None => w end in
  let w := match buttonC (props this) with Some o => setActive o b w | None => w end in
  w.

(** [_showFeedback(text)] *)
Definition _showFeedback (this : QuizAtTime num) (s : string) (w : World) : World :=
  match feedbackObject (props this) with
  | None => w
  | Some fo =>
      let w := setActive fo true w in
      match feedbackText this with
      | Some tc => setText tc s w
      | None => w
      end
  end.

(** [_setupButton(object, answer)] *)
Definition _setupButton (object : option Object) (answer : string) (w : World) : World :=
  match object with
  | None => call (Warn answer) w
  | Some o => addListener o answer w
  end.

(** [start()].  It assigns every field but [audioSource], which stays
    undefined. *)
Definition start (p : Properties num) (sc : Scene) (w : World) : QuizAtTime num * World :=
  let vc := match videoObject p with
            | Some o => getVideoTexture sc o
            | None => None
            end in
  let ft := match feedbackObject p with
            | Some o => getText sc o
            | None => None
            end in
  let w := match feedbackObject p with
           | Some o => setActive o false w
           | None => w
           end in
  let this := {| props := p; quizShown := false; quizCompleted := false;
                 elapsed := f0; videoComponent := vc; feedbackText := ft;
                 audioSource := None |} in
  let w := _setupButton (buttonA p) "A" w in
  let w := _setupButton (buttonB p) "B" w in
  let w := _setupButton (buttonC p) "C" w in
  let w := _setButtonsActive this false w in
  (this, w).

(** Lines 77-88 of [update(dt)]: the clock sample [currentTime], and the
    component after taking it. *)
Definition readClock (this : QuizAtTime num) (dt : num) (video : option (Video num))
  : QuizAtTime num * num :=
  match videoComponent this, video with
  | Some _, Some v => (this, currentTime v)
  | _, _ =>
      let this := set_elapsed (fadd (elapsed this) dt) this in
      (this, elapsed this)
  end.

(** [update(dt)].  [video] is what [this.videoComponent.video] holds at
    the call: the loaded video, or nothing. *)
Definition update (this : QuizAtTime num) (w : World) (dt : num) (video : option (Video num))
  : QuizAtTime num * World :=
  if quizCompleted this || quizShown this then (this, w)
  else
    let '(this, now) := readClock this dt video in
    if fge now (quizTime (props this)) then
      let this := set_quizShown true this in
      let w := if haveVideo this video then call VideoPause w else w in
      let w := _setButtonsActive this true w in
      let w := _showFeedback this "" w in
      (this, w)
    else (this, w).

(** [_onAnswer(answer)], with [video] as for [update]. *)
Definition _onAnswer (this : QuizAtTime num) (w : World) (answer : string)
    (video : option (Video num)) : QuizAtTime num * World :=
  if negb (quizShown this) || quizCompleted this then (this, w)
  else
    let isCorrect := String.eqb answer (correctAnswer (props this)) in
    if isCorrect then
      let w := _showFeedback this "CORRECT!!!" w in
      let w := if haveVideo this video then call VideoPlay w else w in
      let w := match audioSource this with
               | Some _ => call AudioPlay w
               | None => w
               end in
      let w := _setButtonsActive this false w in
      let this := set_quizShown false this in
      let this := set_quizCompleted true this in
      (this, w)
    else
      let w := _showFeedback this " Wrong answer, try again" w in
      (this, w).

(** ** Phases and runs *)

Definition phase (this : QuizAtTime num) : Phase :=
  if quizCompleted this then Completed
  else if quizShown this then Active
  else Waiting.

Definition step (s : QuizAtTime num * World) (e : Event num) : QuizAtTime num * World :=
  match e with
  | Tick dt video => update (fst s) (snd s) dt video
  | Click answer video => _onAnswer (fst s) (snd s) answer video
  end.

Definition run (s : QuizAtTime num * World) (es : list (Event num)) : QuizAtTime num * World :=
  fold_left step es s.

End Quiz.

(** * What the properties speak of *)

Section Observations.

Context {num : Type} `{Num num}.

Implicit Types (this : QuizAtTime num) (p : Properties num) (w : World).
Implicit Types (ts : list (num * option (Video num))).

(** ** Transitions along a run *)

(** The step [e] taken in [s] moves the phase from Waiting to Active. *)
Definition reveals_at (s : QuizAtTime num * World) (e : Event num) : bool :=
  bool_decide (phase (fst s) = Waiting)
  && bool_decide (phase (fst (step s e)) = Active).

Fixpoint reveals (s : QuizAtTime num * World) (es : list (Event num)) : nat :=
  match es with
  | [] => 0
  | e :: es => (if reveals_at s e then 1 else 0) + reveals (step s e) es
  end.

(** The step [e] taken in [this] runs the success branch of [_onAnswer]
    (lines 134-153): a click that passes the guard of line 128 with the
    configured answer. *)
Definition succeeds_at this (e : Event num) : bool :=
  match e with
  | Tick _ _ => false
  | Click answer _ =>
      negb (negb (quizShown this) || quizCompleted this)
      && String.eqb answer (correctAnswer (props this))
  end.

Fixpoint successes (s : QuizAtTime num * World) (es : list (Event num)) : nat :=
  match es with
  | [] => 0
  | e :: es => (if succeeds_at (fst s) e then 1 else 0) + successes (step s e) es
  end.

(** ** The three effects

    The commands each transition issues, as transformations of the world:
    lines 95-104 of [update] (Reveal), lines 135-149 of [_onAnswer]
    (Succeed) and line 156 of [_onAnswer] (Retry). *)

Definition reveal this (video : option (Video num)) w : World :=
  _showFeedback this ""
    (_setButtonsActive this true
       (if haveVideo this video then call VideoPause w else w)).

Definition succeed this (video : option (Video num)) w : World :=
  _setButtonsActive this false
    (match audioSource this with
     | Some _ => call AudioPlay
     | None => fun w => w
     end
       ((if haveVideo this video then call VideoPlay else fun w => w)
          (_showFeedback this "CORRECT!!!" w))).

Definition retry this w : World :=
  _showFeedback this " Wrong answer, try again" w.

(** ** Bound buttons and reachable states *)

(** [o] is one of the answer buttons bound in the editor. *)
Definition bound p (o : positive) : Prop :=
  buttonA p = Some o \/ buttonB p = Some o \/ buttonC p = Some o.

#[export] Instance bound_dec p o : Decision (bound p o).
Proof. unfold bound. apply _. Defined.

(** What holds of every state the host can reach: it calls [start] once
    and then [update] and [_onAnswer] in any order. *)
Record invariant (p : Properties num) (s : QuizAtTime num * World) : Prop := {
  inv_props : props (fst s) = p;
  inv_audio : audioSource (fst s) = None;
  inv_buttons : forall o, bound p o ->
      active (snd s) !! o = Some (bool_decide (phase (fst s) = Active));
  inv_sink : forall fo, phase (fst s) = Active -> feedbackObject p = Some fo ->
      active (snd s) !! fo = Some true;
}.

(** ** Ticks and clock samples *)

(** A frame: the delta the host passes and the video as it is then. *)
Definition tick (t : num * option (Video num)) : Event num :=
  Tick (fst t) (snd t).

(** [e0 + dt1 + ... + dtn], added in the order of the ticks. *)
Definition fallbackSum (e0 : num) (dts : list num) : num :=
  fold_left fadd dts e0.

(** The host passes deltas [dt >= 0]. *)
Definition forward (e : Event num) : Prop :=
  match e with
  | Tick dt _ => fge dt f0 = true
  | Click _ _ => True
  end.

(** The values [currentTime] takes at line 91 along a run of ticks, in
    order: one per tick that passes the guard of line 74. *)
Fixpoint samples (s : QuizAtTime num * World) ts : list num :=
  match ts with
  | [] => []
  | t :: ts =>
      match phase (fst s) with
      | Waiting =>
          snd (readClock (fst s) (fst t) (snd t)) :: samples (step s (tick t)) ts
      | Active | Completed => samples (step s (tick t)) ts
      end
  end.

(** Each element is [>=] the one before it. *)
Fixpoint nondecreasing (l : list num) : bool :=
  match l with
  | [] => true
  | x :: l' =>
      match l' with
      | [] => true
      | y :: _ => fge y x && nondecreasing l'
      end
  end.

(** What the video shows at the ticks that find one. *)
Definition readings ts : list num :=
  flat_map (fun t => match snd t with
                     | Some v => [currentTime v]
                     | None => []
                     end) ts.

End Observations.

(** * Wiring, ranks and clicks *)

Section Wiring.

Context {num : Type} `{Num num}.

(** The answers [start] wires to object [o], in the order of lines
    61-65. *)
Definition labelsOf (p : Properties num) (o : positive) : list string :=
  (if decide (buttonA p = Some o) then ["A"] else [])
  ++ (if decide (buttonB p = Some o) then ["B"] else [])
  ++ (if decide (buttonC p = Some o) then ["C"] else []).

(** The warnings [start] logs for the slots left empty, most recent
    first. *)
Definition unboundWarnings (p : Properties num) : list Call :=
  match buttonC p with Some _ => [] | None => [Warn "C"] end
  ++ match buttonB p with Some _ => [] | None => [Warn "B"] end
  ++ match buttonA p with Some _ => [] | None => [Warn "A"] end.

(** Waiting < Active < Completed. *)
Definition rank (ph : Phase) : nat :=
  match ph with
  | Waiting => 0
  | Active => 1
  | Completed => 2
  end.

(** An event that is not a click with the configured answer. *)
Definition wrong (p : Properties num) (e : Event num) : Prop :=
  match e with
  | Tick _ _ => True
  | Click answer _ => answer <> correctAnswer p
  end.

(** The calls of the listeners [ls] of one object, all made while the
    video is as [video] shows it (line 122). *)
Definition clicks (video : option (Video num)) (ls : list string) : list (Event num) :=
  (fun answer => Click answer video) <$> ls.

(** The media calls made since [start], by phase: none while Waiting, at
    most a pause while Active, at most a play after that pause once
    Completed; none at all without a video component. *)
Definition mediaLog (c0 : list Call) (s : QuizAtTime num * World) : Prop :=
  exists paused played : bool,
    calls (snd s)
    = (if played then [VideoPlay] else [])
      ++ (if paused then [VideoPause] else []) ++ c0
    /\ (phase (fst s) = Waiting -> paused = false)
    /\ (phase (fst s) <> Completed -> played = false)
    /\ (videoComponent (fst s) = None -> paused = false /\ played = false).

(** A tick that finds the video at a position short of [quizTime]. *)
Definition early (this : QuizAtTime num) (t : num * option (Video num)) : Prop :=
  exists v, snd t = Some v /\ fge (currentTime v) (quizTime (props this)) = false.

End Wiring.

(** * Concrete sessions *)

(** A scene with a screen (object 1, video-texture component 10), three
    buttons (objects 2, 3, 4) and a feedback label (object 5, text
    component 11). *)
Definition demoScene : Scene :=
  {| getVideoTexture := fun o => if (o =? 1)%positive then Some 10%positive else None;
     getText := fun o => if (o =? 5)%positive then Some 11%positive else None |}.

Definition emptyWorld : World :=
  {| active := ∅; text := ∅; listeners := ∅; calls := [] |}.

(** The editor defaults ([quizTime] 3.0, [correctAnswer] 'A') with every
    object bound, on binary64 numbers. *)
Definition demoProps : Properties float :=
  {| videoObject := Some 1%positive; quizTime := 3%float;
     buttonA := Some 2%positive; buttonB := Some 3%positive;
     buttonC := Some 4%positive; correctAnswer := "A";
     feedbackObject := Some 5%positive |}.

Definition demoStart : QuizAtTime float * World :=
  start demoProps demoScene emptyWorld.

(** Three frames of one second each while the video is not loaded. *)
Definition demoTicks : list (float * option (Video float)) :=
  [(1%float, None); (1%float, None); (1%float, None)].

(** The same quiz with nothing but button A bound. *)
Definition bareProps : Properties float :=
  {| videoObject := None; quizTime := 3%float;
     buttonA := Some 2%positive; buttonB := None; buttonC := None;
     correctAnswer := "A"; feedbackObject := None |}.

Definition bareStart : QuizAtTime float * World :=
  start bareProps demoScene emptyWorld.

Definition bareTicks : list (float * option (Video float)) :=
  [(1%float, None); (1%float, None); (1%float, None); (1%float, None)].

(** Ten frames of a tenth of a second (the double nearest to 0.1)
    against a [quizTime] of one second. *)
Definition tenthProps : Properties float :=
  {| videoObject := None; quizTime := 1%float;
     buttonA := Some 2%positive; buttonB := None; buttonC := None;
     correctAnswer := "A"; feedbackObject := None |}.

Definition tenthTicks : list (float * option (Video float)) :=
  replicate 10 (0x1.999999999999ap-4%float, None).

(** A quiz whose slots A and B and whose feedback label are all the
    object 5, with slot C left empty and answer 'B'. *)
Definition aliasProps : Properties float :=
  {| videoObject := Some 1%positive; quizTime := 3%float;
     buttonA := Some 5%positive; buttonB := Some 5%positive;
     buttonC := None; correctAnswer := "B";
     feedbackObject := Some 5%positive |}.

Definition aliasStart : QuizAtTime float * World :=
  start aliasProps demoScene emptyWorld.

(** Frames that find the video loaded, at 1 s, 2.5 s, 3.5 s and 3.5 s. *)
Definition videoTicks : list (float * option (Video float)) :=
  [(0.5%float, Some {| currentTime := 1%float |});
   (0.5%float, Some {| currentTime := 2.5%float |});
   (0.5%float, Some {| currentTime := 3.5%float |});
   (0.5%float, Some {| currentTime := 3.5%float |})].

(** * Properties *)

Section Facts.

Context {num : Type} `{Num num}.

Implicit Types (this : QuizAtTime num) (w : World) (e : Event num) (es : list (Event num)).

Lemma phase_Waiting this :
  phase this = Waiting <-> quizCompleted this = false /\ quizShown this = false.
Proof. unfold phase. destruct (quizCompleted this), (quizShown this); intuition congruence. Qed.

Lemma phase_Active this :
  phase this = Active <-> quizCompleted this = false /\ quizShown this = true.
Proof. unfold phase. destruct (quizCompleted this), (quizShown this); intuition congruence. Qed.

Lemma phase_Completed this :
  phase this = Completed <-> quizCompleted this = true.
Proof. unfold phase. destruct (quizCompleted this), (quizShown this); intuition congruence. Qed.

(** The guard of line 74. *)
Lemma update_skip this w dt video :
  phase this <> Waiting -> update this w dt video = (this, w).
Proof.
  intros Hp. unfold update.
  destruct (quizCompleted this) eqn:Hc, (quizShown this) eqn:Hs; try reflexivity.
  exfalso. apply Hp. apply phase_Waiting. auto.
Qed.

(** The guard of line 128. *)
Lemma onAnswer_skip this w answer video :
  phase this <> Active -> _onAnswer this w answer video = (this, w).
Proof.
  intros Hp. unfold _onAnswer.
  destruct (quizShown this) eqn:Hs, (quizCompleted this) eqn:Hc; try reflexivity.
  exfalso. apply Hp. apply phase_Active. auto.
Qed.

Lemma step_Completed (s : QuizAtTime num * World) e :
  phase (fst s) = Completed -> step s e = s.
Proof.
  intros Hp. destruct s as [this w], e as [dt video|answer video]; simpl in *.
  - apply update_skip. congruence.
  - apply onAnswer_skip. congruence.
Qed.

Lemma run_Completed (s : QuizAtTime num * World) es :
  phase (fst s) = Completed -> run s es = s.
Proof.
  unfold run. induction es as [|e es IH]; intros Hp; simpl; [reflexivity|].
  rewrite step_Completed by exact Hp. auto.
Qed.

(** What [update] does when it runs past its guard. *)
Lemma update_Waiting this w dt video :
  phase this = Waiting ->
  update this w dt video =
    let this1 := fst (readClock this dt video) in
    let now := snd (readClock this dt video) in
    if fge now (quizTime (props this)) then
      (set_quizShown true this1,
       _showFeedback this ""
         (_setButtonsActive this true
            (if haveVideo this video then call VideoPause w else w)))
    else (this1, w).
Proof.
  intros [Hc Hs]%phase_Waiting. unfold update. rewrite Hc, Hs. simpl.
  unfold readClock, haveVideo.
  destruct (videoComponent this) eqn:Hv, video; simpl;
    destruct (fge _ _); try reflexivity; simpl; rewrite ?Hv; reflexivity.
Qed.

Lemma readClock_frame this dt video :
  let this1 := fst (readClock this dt video) in
  props this1 = props this /\ quizShown this1 = quizShown this
  /\ quizCompleted this1 = quizCompleted this
  /\ videoComponent this1 = videoComponent this
  /\ feedbackText this1 = feedbackText this
  /\ audioSource this1 = audioSource this.
Proof.
  unfold readClock.
  destruct (videoComponent this) eqn:Hv, video; simpl; rewrite ?Hv; repeat split.
Qed.

(** The phase after a tick taken while Waiting. *)
Lemma update_phase this w dt video :
  phase this = Waiting ->
  phase (fst (update this w dt video)) =
    if fge (snd (readClock this dt video)) (quizTime (props this))
    then Active else Waiting.
Proof.
  intros Hp. rewrite update_Waiting by exact Hp. cbv zeta.
  destruct (readClock_frame this dt video) as (_ & Hs & Hc & _).
  apply phase_Waiting in Hp as [Hc0 Hs0].
  destruct (fge _ _); simpl.
  - apply phase_Active. simpl. split; congruence.
  - apply phase_Waiting. split; congruence.
Qed.

(** What [_onAnswer] does when it runs past its guard. *)
Lemma onAnswer_Active this w answer video :
  phase this = Active ->
  _onAnswer this w answer video =
    if String.eqb answer (correctAnswer (props this)) then
      (set_quizCompleted true (set_quizShown false this),
       _setButtonsActive this false
         (match audioSource this with
          | Some _ => call AudioPlay
          | None => fun w => w
          end
            ((if haveVideo this video then call VideoPlay else fun w => w)
               (_showFeedback this "CORRECT!!!" w))))
    else (this, _showFeedback this " Wrong answer, try again" w).
Proof.
  intros [Hc Hs]%phase_Active. unfold _onAnswer. rewrite Hc, Hs. simpl.
  destruct (String.eqb _ _); [|reflexivity].
  destruct (haveVideo this video), (audioSource this); reflexivity.
Qed.

Lemma onAnswer_phase this w answer video :
  phase this = Active ->
  phase (fst (_onAnswer this w answer video)) =
    if String.eqb answer (correctAnswer (props this)) then Completed else Active.
Proof.
  intros Hp. rewrite onAnswer_Active by exact Hp.
  destruct (String.eqb _ _); simpl; [reflexivity | exact Hp].
Qed.

(** The phase never moves backwards, whatever the event. *)
Lemma step_phase (s : QuizAtTime num * World) e :
  match phase (fst s) with
  | Waiting => phase (fst (step s e)) = Waiting \/ phase (fst (step s e)) = Active
  | Active => phase (fst (step s e)) = Active \/ phase (fst (step s e)) = Completed
  | Completed => phase (fst (step s e)) = Completed
  end.
Proof.
  destruct s as [this w]. simpl fst.
  destruct (phase this) eqn:Hp.
  - destruct e as [dt video|answer video]; simpl.
    + rewrite update_phase by exact Hp. destruct (fge _ _); auto.
    + rewrite onAnswer_skip by congruence. auto.
  - destruct e as [dt video|answer video]; simpl.
    + rewrite update_skip by congruence. auto.
    + rewrite onAnswer_phase by exact Hp. destruct (String.eqb _ _); auto.
  - rewrite step_Completed by exact Hp. exact Hp.
Qed.

Lemma reveals_from_later (s : QuizAtTime num * World) es :
  phase (fst s) <> Waiting -> reveals s es = 0.
Proof.
  revert s. induction es as [|e es IH]; intros s Hp; simpl; [reflexivity|].
  unfold reveals_at. rewrite bool_decide_eq_false_2 by exact Hp. simpl.
  apply IH. pose proof (step_phase s e) as Hs.
  destruct (phase (fst s)); [congruence | |]; intuition congruence.
Qed.

Lemma reveals_le_1 (s : QuizAtTime num * World) es : reveals s es <= 1.
Proof.
  revert s. induction es as [|e es IH]; intros s; simpl; [lia|].
  destruct (reveals_at s e) eqn:Hr.
  - unfold reveals_at in Hr. apply andb_true_iff in Hr as [_ Ha].
    apply bool_decide_eq_true in Ha.
    rewrite reveals_from_later by congruence. lia.
  - specialize (IH (step s e)). lia.
Qed.

(** The success branch is the one step that moves the phase to Completed. *)
Lemma succeeds_at_iff this w e :
  succeeds_at this e = true <->
  phase this = Active /\ phase (fst (step (this, w) e)) = Completed.
Proof.
  destruct e as [dt video|answer video]; simpl.
  - split; [discriminate|]. intros [Hp Hq].
    rewrite update_skip in Hq by congruence. simpl in Hq. congruence.
  - split.
    + intros [Hg He]%andb_true_iff.
      assert (phase this = Active) as Hp.
      { apply phase_Active.
        destruct (quizShown this), (quizCompleted this); simpl in Hg; auto; discriminate. }
      split; [exact Hp|]. rewrite onAnswer_phase by exact Hp. rewrite He. reflexivity.
    + intros [Hp Hq]. rewrite onAnswer_phase in Hq by exact Hp.
      apply phase_Active in Hp as [Hc Hs]. rewrite Hc, Hs. simpl.
      destruct (String.eqb _ _); [reflexivity | discriminate].
Qed.

Lemma successes_Completed (s : QuizAtTime num * World) es :
  phase (fst s) = Completed -> successes s es = 0.
Proof.
  revert s. induction es as [|e es IH]; intros s Hp; simpl; [reflexivity|].
  rewrite step_Completed by exact Hp. rewrite IH by exact Hp.
  destruct s as [this w].
  destruct (succeeds_at (fst (this, w)) e) eqn:Hs; [|reflexivity].
  apply (succeeds_at_iff this w) in Hs as [Ha _]. simpl in Hp. congruence.
Qed.

Lemma successes_le_1 (s : QuizAtTime num * World) es : successes s es <= 1.
Proof.
  revert s. induction es as [|e es IH]; intros s; simpl; [lia|].
  destruct (succeeds_at (fst s) e) eqn:Hs.
  - destruct s as [this w]. apply (succeeds_at_iff this w) in Hs as [_ Hc].
    rewrite successes_Completed by exact Hc. lia.
  - specialize (IH (step s e)). lia.
Qed.

(** ** The trigger *)

(** C1 (monotonic trigger).  Along every run of events from any state,
    ticks with any clock samples (non-decreasing or not) and clicks
    interleaved in any way, the phase moves from Waiting to Active at
    most once; a step that does so is a tick whose clock sample is at
    least [quizTime]; and [update] returns the component and the world
    untouched whenever the phase is not Waiting. *)
Theorem monotonic_trigger this w :
  (forall es, reveals (this, w) es <= 1)
  /\ (forall e, reveals_at (this, w) e = true ->
        exists dt video,
          e = Tick dt video
          /\ fge (snd (readClock this dt video)) (quizTime (props this)) = true)
  /\ (forall dt video,
        phase this <> Waiting -> update this w dt video = (this, w)).
Proof.
  split; [|split].
  - intros es. apply reveals_le_1.
  - intros e [Hw Ha]%andb_true_iff.
    apply bool_decide_eq_true in Hw, Ha. simpl in Hw.
    destruct e as [dt video|answer video]; simpl in Ha.
    + exists dt, video. split; [reflexivity|].
      rewrite update_phase in Ha by exact Hw.
      destruct (fge _ _); [reflexivity | discriminate].
    + rewrite onAnswer_skip in Ha by congruence. simpl in Ha. congruence.
  - intros dt video Hp. apply update_skip. exact Hp.
Qed.

(** ** Answers *)

(** C2 (at most one success).  Along every run from any state the
    success branch of [_onAnswer] runs at most once.  A click with the
    configured answer while Active runs it and leaves the phase
    Completed; from then on every event, a click with any label or a
    tick, returns the component and the world as they were: no feedback
    change, no media call, no visibility change. *)
Theorem at_most_one_success this w :
  (forall es, successes (this, w) es <= 1)
  /\ (forall answer video,
        phase this = Active -> answer = correctAnswer (props this) ->
        let s1 := _onAnswer this w answer video in
        succeeds_at this (Click answer video) = true
        /\ phase (fst s1) = Completed
        /\ (forall answer' video',
              _onAnswer (fst s1) (snd s1) answer' video' = s1)
        /\ (forall es, run s1 es = s1 /\ successes s1 es = 0)).
Proof.
  split.
  - intros es. apply successes_le_1.
  - intros answer video Hp He s1.
    assert (phase (fst s1) = Completed) as Hc.
    { unfold s1. rewrite onAnswer_phase by exact Hp.
      rewrite He, String.eqb_refl. reflexivity. }
    split; [|split; [exact Hc|split]].
    + apply (succeeds_at_iff this w). split; [exact Hp | exact Hc].
    + intros answer' video'.
      rewrite onAnswer_skip by congruence. destruct s1; reflexivity.
    + intros es. split; [apply run_Completed | apply successes_Completed]; exact Hc.
Qed.

(** C3 (answer gating).  A click delivered while the phase is Waiting or
    Completed, with any label, returns the component and the world
    unchanged: the phase, every flag, every text and the call log are as
    before. *)
Theorem answer_gating this w answer video :
  phase this = Waiting \/ phase this = Completed ->
  _onAnswer this w answer video = (this, w).
Proof. intros Hp. apply onAnswer_skip. destruct Hp; congruence. Qed.

End Facts.

(** ** The world under the presentation helpers *)

Section Presentation.

Context {num : Type} `{Num num}.

Implicit Types (this : QuizAtTime num) (p : Properties num) (w : World).

Lemma World_eq w1 w2 :
  active w1 = active w2 -> text w1 = text w2 ->
  listeners w1 = listeners w2 -> calls w1 = calls w2 -> w1 = w2.
Proof. destruct w1, w2; simpl; intros; subst; reflexivity. Qed.

Lemma setButtonsActive_bound this b w o :
  bound (props this) o -> active (_setButtonsActive this b w) !! o = Some b.
Proof.
  unfold bound, _setButtonsActive.
  destruct (buttonA (props this)), (buttonB (props this)), (buttonC (props this));
    simpl; intros Hb; rewrite ?lookup_insert; repeat case_decide;
    try reflexivity; intuition congruence.
Qed.

Lemma setButtonsActive_other this b w o :
  ~ bound (props this) o -> active (_setButtonsActive this b w) !! o = active w !! o.
Proof.
  unfold bound, _setButtonsActive.
  destruct (buttonA (props this)), (buttonB (props this)), (buttonC (props this));
    simpl; intros Hb; rewrite ?lookup_insert; repeat case_decide;
    try reflexivity; exfalso; apply Hb; subst; auto.
Qed.

Lemma setButtonsActive_frame this b w :
  text (_setButtonsActive this b w) = text w
  /\ listeners (_setButtonsActive this b w) = listeners w
  /\ calls (_setButtonsActive this b w) = calls w.
Proof.
  unfold _setButtonsActive.
  destruct (buttonA (props this)), (buttonB (props this)), (buttonC (props this));
    simpl; auto.
Qed.

Lemma showFeedback_active this s w :
  active (_showFeedback this s w) =
    match feedbackObject (props this) with
    | Some fo => <[fo := true]> (active w)
    | None => active w
    end.
Proof.
  unfold _showFeedback.
  destruct (feedbackObject (props this)); [|reflexivity].
  destruct (feedbackText this); reflexivity.
Qed.

Lemma showFeedback_text this s w :
  text (_showFeedback this s w) =
    match feedbackObject (props this), feedbackText this with
    | Some _, Some tc => <[tc := s]> (text w)
    | _, _ => text w
    end.
Proof.
  unfold _showFeedback.
  destruct (feedbackObject (props this)); [|reflexivity].
  destruct (feedbackText this); reflexivity.
Qed.

Lemma showFeedback_frame this s w :
  listeners (_showFeedback this s w) = listeners w
  /\ calls (_showFeedback this s w) = calls w.
Proof.
  unfold _showFeedback.
  destruct (feedbackObject (props this)); [|auto].
  destruct (feedbackText this); auto.
Qed.

(** A button keeps a [true] flag under [_showFeedback], also when the
    feedback object is that very button. *)
Lemma showFeedback_keeps_true this s w o :
  active w !! o = Some true -> active (_showFeedback this s w) !! o = Some true.
Proof.
  intros Ho. rewrite showFeedback_active.
  destruct (feedbackObject (props this)) as [fo|]; [|exact Ho].
  rewrite lookup_insert. case_decide; [reflexivity | exact Ho].
Qed.

End Presentation.

(** ** The transitions in terms of the three effects *)

Section Effects.

Context {num : Type} `{Num num}.

Implicit Types (this : QuizAtTime num) (p : Properties num) (w : World).

Lemma update_reveal this w dt video :
  phase this = Waiting ->
  fge (snd (readClock this dt video)) (quizTime (props this)) = true ->
  update this w dt video
  = (set_quizShown true (fst (readClock this dt video)), reveal this video w).
Proof.
  intros Hp Hge. rewrite update_Waiting by exact Hp. cbv zeta.
  rewrite Hge. reflexivity.
Qed.

Lemma update_wait this w dt video :
  phase this = Waiting ->
  fge (snd (readClock this dt video)) (quizTime (props this)) = false ->
  update this w dt video = (fst (readClock this dt video), w).
Proof.
  intros Hp Hge. rewrite update_Waiting by exact Hp. cbv zeta.
  rewrite Hge. reflexivity.
Qed.

Lemma onAnswer_succeed this w answer video :
  phase this = Active -> answer = correctAnswer (props this) ->
  _onAnswer this w answer video
  = (set_quizCompleted true (set_quizShown false this), succeed this video w).
Proof.
  intros Hp He. rewrite onAnswer_Active by exact Hp.
  rewrite He, String.eqb_refl. reflexivity.
Qed.

Lemma onAnswer_retry this w answer video :
  phase this = Active -> answer <> correctAnswer (props this) ->
  _onAnswer this w answer video = (this, retry this w).
Proof.
  intros Hp He. rewrite onAnswer_Active by exact Hp.
  apply String.eqb_neq in He. rewrite He. reflexivity.
Qed.

(** No method assigns a property or a binding after [start]. *)
Lemma step_bindings (s : QuizAtTime num * World) (e : Event num) :
  props (fst (step s e)) = props (fst s)
  /\ videoComponent (fst (step s e)) = videoComponent (fst s)
  /\ feedbackText (fst (step s e)) = feedbackText (fst s)
  /\ audioSource (fst (step s e)) = audioSource (fst s).
Proof.
  destruct s as [this w]. simpl fst.
  destruct (phase this) eqn:Hp, e as [dt video|answer video]; simpl;
    rewrite ?update_skip, ?onAnswer_skip by congruence; simpl; auto.
  - rewrite update_Waiting by exact Hp. cbv zeta.
    destruct (readClock_frame this dt video) as (? & _ & _ & ? & ? & ?).
    destruct (fge _ _); simpl; auto.
  - rewrite onAnswer_Active by exact Hp.
    destruct (String.eqb _ _); simpl; auto.
Qed.

Lemma run_snoc (s : QuizAtTime num * World) (es : list (Event num)) (e : Event num) :
  run s (es ++ [e]) = step (run s es) e.
Proof. unfold run. rewrite fold_left_app. reflexivity. Qed.

Lemma run_app (s : QuizAtTime num * World) (es1 es2 : list (Event num)) :
  run s (es1 ++ es2) = run (run s es1) es2.
Proof. unfold run. apply fold_left_app. Qed.

Lemma run_bindings (s : QuizAtTime num * World) (es : list (Event num)) :
  props (fst (run s es)) = props (fst s)
  /\ videoComponent (fst (run s es)) = videoComponent (fst s)
  /\ feedbackText (fst (run s es)) = feedbackText (fst s)
  /\ audioSource (fst (run s es)) = audioSource (fst s).
Proof.
  induction es as [|e es IH] using rev_ind; [simpl; auto|].
  rewrite run_snoc.
  destruct (step_bindings (run s es) e) as (-> & -> & -> & ->). exact IH.
Qed.

(** The invariant holds after [start] and every method keeps it. *)

Lemma invariant_start p (sc : Scene) w0 : invariant p (start p sc w0).
Proof.
  unfold start. split; simpl; try reflexivity.
  - intros o Hb. apply setButtonsActive_bound. exact Hb.
  - intros fo Hp. discriminate.
Qed.

Lemma invariant_step p (s : QuizAtTime num * World) (e : Event num) :
  invariant p s -> invariant p (step s e).
Proof.
  intros [Hpr Hau Hbt Hsk].
  destruct (step_bindings s e) as (Hp' & _ & _ & Ha').
  destruct s as [this w]. simpl fst in *. simpl snd in *.
  destruct (phase this) eqn:Hp.
  - (* Waiting *)
    destruct e as [dt video|answer video]; simpl step in *.
    2:{ rewrite onAnswer_skip in * by congruence.
        split; cbn [fst snd]; rewrite ?Hp; auto. }
    destruct (fge (snd (readClock this dt video)) (quizTime (props this))) eqn:Hge.
    + rewrite update_reveal in * by assumption. simpl fst in *. simpl snd in *.
      assert (phase (set_quizShown true (fst (readClock this dt video))) = Active) as Hq.
      { destruct (readClock_frame this dt video) as (_ & _ & Hc & _).
        apply phase_Waiting in Hp as [Hc0 _].
        apply phase_Active. simpl. split; congruence. }
      split; cbn [fst snd]; try congruence; rewrite ?Hq.
      * intros o Hb. rewrite bool_decide_eq_true_2 by reflexivity.
        apply showFeedback_keeps_true, setButtonsActive_bound. congruence.
      * intros fo _ Hfo. unfold reveal. rewrite showFeedback_active.
        rewrite Hpr, Hfo. apply lookup_insert_eq.
    + rewrite update_wait in * by assumption. simpl fst in *. simpl snd in *.
      assert (phase (fst (readClock this dt video)) = Waiting) as Hq.
      { destruct (readClock_frame this dt video) as (_ & Hs & Hc & _).
        apply phase_Waiting in Hp as [Hc0 Hs0].
        apply phase_Waiting. split; congruence. }
      split; cbn [fst snd]; rewrite ?Hq; try congruence; exact Hbt.
  - (* Active *)
    destruct e as [dt video|answer video]; simpl step in *.
    1:{ rewrite update_skip in * by congruence.
        split; cbn [fst snd]; rewrite ?Hp; auto. }
    destruct (decide (answer = correctAnswer (props this))) as [He|He].
    + rewrite onAnswer_succeed in * by assumption. simpl fst in *. simpl snd in *.
      split; cbn [fst snd]; try congruence.
      * intros o Hb. rewrite bool_decide_eq_false_2 by discriminate.
        apply setButtonsActive_bound. congruence.
      * intros fo Hq. discriminate.
    + rewrite onAnswer_retry in * by assumption. simpl fst in *. simpl snd in *.
      split; cbn [fst snd]; try congruence; rewrite ?Hp.
      * intros o Hb. apply showFeedback_keeps_true. auto.
      * intros fo _ Hfo. apply showFeedback_keeps_true. auto.
  - (* Completed *)
    rewrite step_Completed by exact Hp.
    split; cbn [fst snd]; rewrite ?Hp; auto.
Qed.

Lemma invariant_run p (sc : Scene) w0 (es : list (Event num)) :
  invariant p (run (start p sc w0) es).
Proof.
  induction es as [|e es IH] using rev_ind.
  - apply invariant_start.
  - rewrite run_snoc. apply invariant_step, IH.
Qed.

End Effects.

(** ** Idempotence of the effects *)

Section Idempotence.

Context {num : Type} `{Num num}.

Implicit Types (this : QuizAtTime num) (p : Properties num) (w : World).

Lemma setButtonsActive_lookup this b w k :
  active (_setButtonsActive this b w) !! k
  = if decide (bound (props this) k) then Some b else active w !! k.
Proof.
  case_decide.
  - apply setButtonsActive_bound. assumption.
  - apply setButtonsActive_other. assumption.
Qed.

Lemma showFeedback_lookup this s w k :
  active (_showFeedback this s w) !! k
  = if decide (feedbackObject (props this) = Some k) then Some true
    else active w !! k.
Proof.
  rewrite showFeedback_active.
  destruct (feedbackObject (props this)) as [fo|].
  - rewrite lookup_insert. repeat case_decide; congruence.
  - case_decide; [discriminate | reflexivity].
Qed.

Lemma setButtonsActive_idem this b w :
  _setButtonsActive this b (_setButtonsActive this b w) = _setButtonsActive this b w.
Proof.
  apply World_eq;
    try (rewrite !(proj1 (setButtonsActive_frame _ _ _)); reflexivity);
    try (rewrite !(proj1 (proj2 (setButtonsActive_frame _ _ _))); reflexivity);
    try (rewrite !(proj2 (proj2 (setButtonsActive_frame _ _ _))); reflexivity).
  apply map_eq. intros k. rewrite !setButtonsActive_lookup.
  case_decide; reflexivity.
Qed.

Lemma showFeedback_idem this s w :
  _showFeedback this s (_showFeedback this s w) = _showFeedback this s w.
Proof.
  apply World_eq.
  - apply map_eq. intros k. rewrite !showFeedback_lookup. case_decide; reflexivity.
  - rewrite !showFeedback_text.
    destruct (feedbackObject (props this)), (feedbackText this); try reflexivity.
    apply insert_insert_eq.
  - rewrite !(proj1 (showFeedback_frame _ _ _)). reflexivity.
  - rewrite !(proj2 (showFeedback_frame _ _ _)). reflexivity.
Qed.

Lemma reveal_observable this video w :
  observable (reveal this video w)
  = observable (_showFeedback this "" (_setButtonsActive this true w)).
Proof.
  unfold reveal. destruct (haveVideo this video); [|reflexivity].
  unfold observable. f_equal.
  - apply map_eq. intros k.
    rewrite !showFeedback_lookup, !setButtonsActive_lookup. reflexivity.
  - rewrite !showFeedback_text, !(proj1 (setButtonsActive_frame _ _ _)). reflexivity.
Qed.

Lemma succeed_observable this video w :
  observable (succeed this video w)
  = observable (_setButtonsActive this false (_showFeedback this "CORRECT!!!" w)).
Proof.
  unfold succeed, observable. f_equal.
  - apply map_eq. intros k. rewrite !setButtonsActive_lookup.
    case_decide; [reflexivity|].
    destruct (audioSource this), (haveVideo this video); reflexivity.
  - rewrite !(proj1 (setButtonsActive_frame _ _ _)).
    destruct (audioSource this), (haveVideo this video); reflexivity.
Qed.

Lemma reveal_lookup this video w k :
  active (reveal this video w) !! k
  = if decide (feedbackObject (props this) = Some k) then Some true
    else if decide (bound (props this) k) then Some true
    else active w !! k.
Proof.
  change (active (reveal this video w)) with (fst (observable (reveal this video w))).
  rewrite reveal_observable. simpl.
  rewrite showFeedback_lookup, setButtonsActive_lookup. reflexivity.
Qed.

Lemma succeed_lookup this video w k :
  active (succeed this video w) !! k
  = if decide (bound (props this) k) then Some false
    else if decide (feedbackObject (props this) = Some k) then Some true
    else active w !! k.
Proof.
  change (active (succeed this video w)) with (fst (observable (succeed this video w))).
  rewrite succeed_observable. simpl.
  rewrite setButtonsActive_lookup, showFeedback_lookup. reflexivity.
Qed.

Lemma reveal_text this video w :
  text (reveal this video w) = text (_showFeedback this "" w).
Proof.
  change (text (reveal this video w)) with (snd (observable (reveal this video w))).
  rewrite reveal_observable. simpl.
  rewrite !showFeedback_text, (proj1 (setButtonsActive_frame _ _ _)). reflexivity.
Qed.

Lemma succeed_text this video w :
  text (succeed this video w) = text (_showFeedback this "CORRECT!!!" w).
Proof.
  change (text (succeed this video w)) with (snd (observable (succeed this video w))).
  rewrite succeed_observable. simpl.
  rewrite (proj1 (setButtonsActive_frame _ _ _)). reflexivity.
Qed.

(** C8 (idempotent effects).  Applying Reveal, Succeed or Retry a second
    time right after the first leaves every visibility flag and every
    text as the first application left them, whatever is bound and
    whichever objects the bindings share.  The two helpers the effects
    are built from are idempotent on the whole world. *)
Theorem effects_idempotent this video w :
  observable (reveal this video (reveal this video w))
  = observable (reveal this video w)
  /\ observable (succeed this video (succeed this video w))
     = observable (succeed this video w)
  /\ observable (retry this (retry this w)) = observable (retry this w)
  /\ (forall b, _setButtonsActive this b (_setButtonsActive this b w)
                = _setButtonsActive this b w)
  /\ (forall s, _showFeedback this s (_showFeedback this s w)
                = _showFeedback this s w).
Proof.
  repeat split.
  - unfold observable. f_equal.
    + apply map_eq. intros k. rewrite !reveal_lookup.
      repeat case_decide; reflexivity.
    + repeat (rewrite ?reveal_text, ?showFeedback_text).
      destruct (feedbackObject (props this)), (feedbackText this); try reflexivity.
      apply insert_insert_eq.
  - unfold observable. f_equal.
    + apply map_eq. intros k. rewrite !succeed_lookup.
      repeat case_decide; reflexivity.
    + repeat (rewrite ?succeed_text, ?showFeedback_text).
      destruct (feedbackObject (props this)), (feedbackText this); try reflexivity.
      apply insert_insert_eq.
  - unfold retry. rewrite showFeedback_idem. reflexivity.
  - intros b. apply setButtonsActive_idem.
  - intros s. apply showFeedback_idem.
Qed.

End Idempotence.

(** ** Reachable states *)

Section Reachable.

Context {num : Type} `{Num num}.

Implicit Types (this : QuizAtTime num) (p : Properties num) (w : World).

Lemma reveal_calls this video w :
  calls (reveal this video w)
  = (if haveVideo this video then [VideoPause] else []) ++ calls w.
Proof.
  unfold reveal.
  rewrite (proj2 (showFeedback_frame _ _ _)), (proj2 (proj2 (setButtonsActive_frame _ _ _))).
  destruct (haveVideo this video); reflexivity.
Qed.

Lemma succeed_calls this video w :
  calls (succeed this video w)
  = match audioSource this with Some _ => [AudioPlay] | None => [] end
    ++ (if haveVideo this video then [VideoPlay] else [])
    ++ calls w.
Proof.
  unfold succeed. rewrite (proj2 (proj2 (setButtonsActive_frame _ _ _))).
  destruct (audioSource this), (haveVideo this video); simpl;
    rewrite (proj2 (showFeedback_frame _ _ _)); reflexivity.
Qed.

(** C9 (visibility tracks the phase).  After [start] and after every
    later [update] and [_onAnswer] call, the [active] flag of each bound
    answer button is [true] when the phase is Active and [false] when it
    is Waiting or Completed. *)
Theorem buttons_track_phase p (sc : Scene) w0 (es : list (Event num)) (o : positive) :
  bound p o ->
  active (snd (run (start p sc w0) es)) !! o
  = Some match phase (fst (run (start p sc w0) es)) with
         | Active => true
         | Waiting | Completed => false
         end.
Proof.
  intros Hb. rewrite (inv_buttons _ _ (invariant_run p sc w0 es) o Hb).
  destruct (phase _); reflexivity.
Qed.

(** A run of clicks with wrong labels, from any Active state. *)
Lemma retry_run this w (clicks : list (string * option (Video num))) :
  phase this = Active ->
  Forall (fun c => fst c <> correctAnswer (props this)) clicks ->
  run (this, w) (map (fun c => Click (fst c) (snd c)) clicks)
  = (this, match clicks with [] => w | _ :: _ => retry this w end).
Proof.
  intros Hp Hall. revert w.
  induction Hall as [|c clicks Hc Hall IH]; intros w; [reflexivity|].
  change (run (this, w) (map _ (c :: clicks)))
    with (run (_onAnswer this w (fst c) (snd c))
              (map (fun c => Click (fst c) (snd c)) clicks)).
  rewrite onAnswer_retry by assumption. rewrite IH.
  destruct clicks; [reflexivity|].
  unfold retry. rewrite showFeedback_idem. reflexivity.
Qed.

(** C5 (retry loop).  From a reachable Active state, after any number of
    clicks with labels other than the configured answer the component is
    unchanged, so the phase is still Active; every visibility flag is as
    before, the bound buttons visible; no call at all was made, so no
    pause nor play; and, once a click was made, the text of a bound
    feedback sink is the retry message and no other text changed. *)
Theorem retry_loop p (sc : Scene) w0 (es : list (Event num))
    (clicks : list (string * option (Video num))) :
  let s := run (start p sc w0) es in
  let s' := run s (map (fun c => Click (fst c) (snd c)) clicks) in
  phase (fst s) = Active ->
  Forall (fun c => fst c <> correctAnswer p) clicks ->
  fst s' = fst s
  /\ phase (fst s') = Active
  /\ active (snd s') = active (snd s)
  /\ (forall o, bound p o -> active (snd s') !! o = Some true)
  /\ calls (snd s') = calls (snd s)
  /\ text (snd s')
     = match clicks, feedbackObject p, feedbackText (fst s) with
       | _ :: _, Some _, Some tc =>
           <[tc := " Wrong answer, try again"]> (text (snd s))
       | _, _, _ => text (snd s)
       end.
Proof.
  intros s s' Hp Hall.
  pose proof (invariant_run p sc w0 es) as [Hpr Hau Hbt Hsk]. fold s in Hpr, Hau, Hbt, Hsk.
  unfold s'. destruct s as [this w]. simpl fst in *. simpl snd in *.
  rewrite retry_run by (rewrite ?Hpr; assumption). simpl fst. simpl snd.
  assert (active (retry this w) = active w) as Hact.
  { unfold retry. rewrite showFeedback_active. rewrite Hpr.
    destruct (feedbackObject p) as [fo|] eqn:Hfo; [|reflexivity].
    apply insert_id. apply Hsk; [exact Hp | reflexivity]. }
  assert (forall o, bound p o -> active w !! o = Some true) as Hvis.
  { intros o Hb. rewrite (Hbt o Hb), Hp. reflexivity. }
  split; [reflexivity|]. split; [exact Hp|].
  destruct clicks as [|c clicks]; simpl.
  - repeat split; auto.
  - rewrite Hact. repeat split; auto.
    + unfold retry. apply (proj2 (showFeedback_frame _ _ _)).
    + unfold retry. rewrite showFeedback_text, Hpr. reflexivity.
Qed.

(** C6 (unbound collaborators).  A click with the configured answer
    while Active leaves the phase Completed and the bound buttons
    hidden, and a tick whose sample reaches [quizTime] while Waiting
    leaves the phase Active and the bound buttons visible, whatever is
    bound.  With no video to command no [play] nor [pause] call is made;
    with no feedback object, or no text component on it, no text
    changes; with no feedback object the flags change as
    [_setButtonsActive] alone changes them. *)
Theorem unbound_collaborators this w :
  (forall answer video,
     phase this = Active -> answer = correctAnswer (props this) ->
     let s' := _onAnswer this w answer video in
     phase (fst s') = Completed
     /\ (forall o, bound (props this) o -> active (snd s') !! o = Some false)
     /\ (haveVideo this video = false ->
         calls (snd s')
         = match audioSource this with Some _ => [AudioPlay] | None => [] end
           ++ calls w)
     /\ (feedbackObject (props this) = None \/ feedbackText this = None ->
         text (snd s') = text w)
     /\ (feedbackObject (props this) = None ->
         active (snd s') = active (_setButtonsActive this false w)))
  /\ (forall dt video,
        phase this = Waiting ->
        fge (snd (readClock this dt video)) (quizTime (props this)) = true ->
        let s' := update this w dt video in
        phase (fst s') = Active
        /\ (forall o, bound (props this) o -> active (snd s') !! o = Some true)
        /\ (haveVideo this video = false -> calls (snd s') = calls w)
        /\ (feedbackObject (props this) = None \/ feedbackText this = None ->
            text (snd s') = text w)
        /\ (feedbackObject (props this) = None ->
            active (snd s') = active (_setButtonsActive this true w))).
Proof.
  split.
  - intros answer video Hp He s'. unfold s'.
    rewrite onAnswer_succeed by assumption. simpl fst. simpl snd.
    split; [reflexivity|]. split; [|split; [|split]].
    + intros o Hb. rewrite succeed_lookup. rewrite decide_True by exact Hb. reflexivity.
    + intros Hv. rewrite succeed_calls, Hv. reflexivity.
    + intros Hf. rewrite succeed_text, showFeedback_text.
      destruct Hf as [-> | ->]; [reflexivity|].
      destruct (feedbackObject (props this)); reflexivity.
    + intros Hf. apply map_eq. intros k.
      rewrite succeed_lookup, setButtonsActive_lookup, Hf.
      repeat case_decide; try reflexivity; discriminate.
  - intros dt video Hp Hge s'. unfold s'.
    rewrite update_reveal by assumption. simpl fst. simpl snd.
    split; [|split; [|split; [|split]]].
    + destruct (readClock_frame this dt video) as (_ & _ & Hc & _).
      apply phase_Waiting in Hp as [Hc0 _].
      apply phase_Active. simpl. split; congruence.
    + intros o Hb. rewrite reveal_lookup.
      rewrite (decide_True (P := bound _ _)) by exact Hb.
      case_decide; reflexivity.
    + intros Hv. rewrite reveal_calls, Hv. reflexivity.
    + intros Hf. rewrite reveal_text, showFeedback_text.
      destruct Hf as [-> | ->]; [reflexivity|].
      destruct (feedbackObject (props this)); reflexivity.
    + intros Hf. apply map_eq. intros k.
      rewrite reveal_lookup, setButtonsActive_lookup, Hf.
      repeat case_decide; try reflexivity; discriminate.
Qed.

(** C10 (the audio branch).  In every state reached from [start] the
    [audioSource] field is unset, so a click with the configured answer
    while Active calls [play] on the video when there is one and makes
    no other call, and the phase becomes Completed.  For any component,
    reachable or not, the flags and texts the success branch leaves do
    not depend on [audioSource]. *)
Theorem audio_branch_unreachable p (sc : Scene) w0 (es : list (Event num)) :
  let s := run (start p sc w0) es in
  audioSource (fst s) = None
  /\ (forall answer video,
        phase (fst s) = Active -> answer = correctAnswer p ->
        let s' := _onAnswer (fst s) (snd s) answer video in
        phase (fst s') = Completed
        /\ calls (snd s')
           = (if haveVideo (fst s) video then [VideoPlay] else []) ++ calls (snd s))
  /\ (forall this w answer video,
        phase this = Active -> answer = correctAnswer (props this) ->
        let s' := _onAnswer this w answer video in
        phase (fst s') = Completed
        /\ observable (snd s')
           = observable (_setButtonsActive this false
                           (_showFeedback this "CORRECT!!!" w))).
Proof.
  intros s.
  pose proof (invariant_run p sc w0 es) as [Hpr Hau _ _]. fold s in Hpr, Hau.
  split; [exact Hau|]. split.
  - intros answer video Hp He s'. unfold s'.
    rewrite onAnswer_succeed by (rewrite ?Hpr; assumption). simpl fst. simpl snd.
    split; [reflexivity|]. rewrite succeed_calls, Hau. reflexivity.
  - intros this w answer video Hp He s'. unfold s'.
    rewrite onAnswer_succeed by assumption. simpl fst. simpl snd.
    split; [reflexivity|]. apply succeed_observable.
Qed.

End Reachable.

(** ** The fallback clock *)

Section Fallback.

Context {num : Type} `{Num num}.

Implicit Types (this : QuizAtTime num) (p : Properties num) (w : World).
Implicit Types (ts : list (num * option (Video num))).

Lemma fallbackSum_snoc (e0 : num) (dts : list num) (dt : num) :
  fallbackSum e0 (dts ++ [dt]) = fadd (fallbackSum e0 dts) dt.
Proof. unfold fallbackSum. rewrite fold_left_app. reflexivity. Qed.

Lemma readClock_fallback this dt video :
  haveVideo this video = false ->
  readClock this dt video
  = (set_elapsed (fadd (elapsed this) dt) this, fadd (elapsed this) dt).
Proof.
  unfold haveVideo, readClock.
  destruct (videoComponent this), video; intros Hv; try discriminate; reflexivity.
Qed.

Lemma readClock_external this dt video :
  haveVideo this video = true ->
  exists v, video = Some v /\ readClock this dt video = (this, currentTime v).
Proof.
  unfold haveVideo, readClock.
  destruct (videoComponent this), video as [v|]; intros Hv; try discriminate.
  exists v. split; reflexivity.
Qed.

Lemma set_elapsed_same this : set_elapsed (elapsed this) this = this.
Proof. destruct this; reflexivity. Qed.

(** Ticks that find no video and stay below [quizTime] only add up. *)
Lemma run_below this w ts :
  phase this = Waiting ->
  Forall (fun t => haveVideo this (snd t) = false) ts ->
  (forall k, 0 < k <= length ts ->
     fge (fallbackSum (elapsed this) (take k (fst <$> ts))) (quizTime (props this)) = false) ->
  run (this, w) (tick <$> ts)
  = (set_elapsed (fallbackSum (elapsed this) (fst <$> ts)) this, w).
Proof.
  intros Hp Hall. revert this Hp Hall.
  induction ts as [|[dt video] ts IH]; intros this Hp Hall Hlow.
  - simpl. rewrite set_elapsed_same. reflexivity.
  - apply Forall_cons in Hall as [Hv Hall]. simpl in Hv.
    change (run (this, w) (tick <$> (dt, video) :: ts))
      with (run (update this w dt video) (tick <$> ts)).
    rewrite update_wait; [|exact Hp|].
    2:{ rewrite readClock_fallback by exact Hv. simpl.
        apply (Hlow 1). simpl. lia. }
    rewrite readClock_fallback by exact Hv. simpl fst.
    rewrite IH.
    + reflexivity.
    + apply phase_Waiting in Hp. apply phase_Waiting. exact Hp.
    + exact Hall.
    + intros k Hk. apply (Hlow (S k)). simpl. lia.
Qed.

(** Ticks taken after the quiz was shown do nothing. *)
Lemma run_ticks_later this w ts :
  phase this <> Waiting -> run (this, w) (tick <$> ts) = (this, w).
Proof.
  intros Hp. induction ts as [|[dt video] ts IH]; [reflexivity|].
  change (run (this, w) (tick <$> (dt, video) :: ts))
    with (run (update this w dt video) (tick <$> ts)).
  rewrite update_skip by exact Hp. exact IH.
Qed.

(** The tick that follows [n - 1] ticks below [quizTime]. *)
Lemma run_first_hit this w ts n :
  phase this = Waiting ->
  Forall (fun t => haveVideo this (snd t) = false) ts ->
  0 < n <= length ts ->
  (forall k, 0 < k < n ->
     fge (fallbackSum (elapsed this) (take k (fst <$> ts))) (quizTime (props this)) = false) ->
  let s := run (this, w) (tick <$> take n ts) in
  elapsed (fst s) = fallbackSum (elapsed this) (take n (fst <$> ts))
  /\ phase (fst s)
     = (if fge (fallbackSum (elapsed this) (take n (fst <$> ts))) (quizTime (props this))
        then Active else Waiting)
  /\ phase (fst (run (this, w) (tick <$> take (n - 1) ts))) = Waiting.
Proof.
  intros Hp Hall [Hn Hlen] Hlow.
  destruct n as [|m]; [lia|]. replace (S m - 1) with m by lia.
  destruct (lookup_lt_is_Some_2 ts m) as [[dt video] Ht]; [lia|].
  assert (run (this, w) (tick <$> take m ts)
          = (set_elapsed (fallbackSum (elapsed this) (take m (fst <$> ts))) this, w)) as Hm.
  { rewrite <- fmap_take. apply run_below.
    - exact Hp.
    - apply Forall_take. exact Hall.
    - intros k Hk. rewrite length_take in Hk.
      rewrite fmap_take, take_take. replace (k `min` m) with k by lia.
      apply Hlow. lia. }
  cbv zeta. rewrite (take_S_r ts m _ Ht), fmap_app, run_app, Hm.
  assert (take (S m) (fst <$> ts) = take m (fst <$> ts) ++ [dt]) as Hd.
  { apply take_S_r. rewrite list_lookup_fmap, Ht. reflexivity. }
  rewrite Hd, !fallbackSum_snoc.
  set (e := fallbackSum (elapsed this) (take m (fst <$> ts))).
  assert (haveVideo (set_elapsed e this) video = false) as Hv.
  { rewrite Forall_forall in Hall. apply (Hall (dt, video)).
    eapply list_elem_of_lookup_2. exact Ht. }
  assert (phase (set_elapsed e this) = Waiting) as Hq.
  { apply phase_Waiting in Hp. apply phase_Waiting. exact Hp. }
  change (run (set_elapsed e this, w) (tick <$> [(dt, video)]))
    with (update (set_elapsed e this) w dt video).
  split; [|split].
  - rewrite update_Waiting by exact Hq. cbv zeta.
    rewrite readClock_fallback by exact Hv. simpl.
    destruct (fge _ _); reflexivity.
  - rewrite update_phase by exact Hq.
    rewrite readClock_fallback by exact Hv. reflexivity.
  - exact Hq.
Qed.

End Fallback.

Section FallbackOrder.

Context {num : Type} `{Num num} `{!NumOrder num}.

Implicit Types (this : QuizAtTime num) (p : Properties num) (w : World).
Implicit Types (ts : list (num * option (Video num))).

(** Only a tick taken while Waiting that finds no video moves [elapsed]. *)
Lemma step_elapsed (s : QuizAtTime num * World) (e : Event num) :
  elapsed (fst (step s e)) = elapsed (fst s)
  \/ (phase (fst s) = Waiting
      /\ exists dt video,
           e = Tick dt video /\ haveVideo (fst s) video = false
           /\ elapsed (fst (step s e)) = fadd (elapsed (fst s)) dt).
Proof.
  destruct s as [this w]. simpl fst.
  destruct (phase this) eqn:Hp.
  - destruct e as [dt video|answer video]; simpl.
    2:{ rewrite onAnswer_skip by congruence. auto. }
    destruct (haveVideo this video) eqn:Hv.
    + left. rewrite update_Waiting by exact Hp. cbv zeta.
      destruct (readClock_external this dt video Hv) as (v & _ & ->).
      destruct (fge _ _); reflexivity.
    + right. split; [reflexivity|]. exists dt, video.
      split; [reflexivity|]. split; [exact Hv|].
      rewrite update_Waiting by exact Hp. cbv zeta.
      rewrite readClock_fallback by exact Hv.
      destruct (fge _ _); reflexivity.
  - left. destruct e as [dt video|answer video]; simpl.
    + rewrite update_skip by congruence. reflexivity.
    + rewrite onAnswer_Active by exact Hp. destruct (String.eqb _ _); reflexivity.
  - left. rewrite step_Completed by exact Hp. reflexivity.
Qed.

(** An event with a delta [>= 0] keeps a clock [>= 0] where it was or
    moves it up. *)
Lemma step_elapsed_forward (s : QuizAtTime num * World) (e : Event num) :
  forward e -> fge (elapsed (fst s)) f0 = true ->
  fge (elapsed (fst (step s e))) (elapsed (fst s)) = true
  /\ fge (elapsed (fst (step s e))) f0 = true.
Proof.
  intros He H0.
  destruct (step_elapsed s e) as [-> | (_ & dt & video & -> & _ & ->)].
  - split; [apply fge_refl, H0 | exact H0].
  - simpl in He.
    assert (fge (fadd (elapsed (fst s)) dt) (elapsed (fst s)) = true) as Hge
      by (apply fge_add; assumption).
    split; [exact Hge|].
    apply (fge_trans _ (elapsed (fst s)) f0); [apply fge_zero | exact H0 | exact Hge].
Qed.

Lemma run_elapsed_forward (s : QuizAtTime num * World) (es : list (Event num)) :
  Forall forward es -> fge (elapsed (fst s)) f0 = true ->
  fge (elapsed (fst (run s es))) (elapsed (fst s)) = true
  /\ fge (elapsed (fst (run s es))) f0 = true.
Proof.
  intros Hall H0. induction es as [|e es IH] using rev_ind.
  - split; [apply fge_refl, H0 | exact H0].
  - apply Forall_app in Hall as [Hes He]. apply Forall_inv in He.
    destruct (IH Hes) as [Hge Hnn]. rewrite run_snoc.
    destruct (step_elapsed_forward (run s es) e He Hnn) as [Hstep Hnn'].
    split; [|exact Hnn'].
    apply (fge_trans _ (elapsed (fst (run s es))) (elapsed (fst s))); assumption.
Qed.

(** In a session whose deltas are [>= 0] the fallback clock is [>= 0]
    and never decreases. *)
Lemma session_elapsed_nonneg p (sc : Scene) w0 (es : list (Event num)) :
  Forall forward es -> fge (elapsed (fst (run (start p sc w0) es))) f0 = true.
Proof.
  intros Hall. apply run_elapsed_forward; [exact Hall | apply fge_zero].
Qed.

Lemma session_elapsed_monotone p (sc : Scene) w0 (es1 es2 : list (Event num)) :
  Forall forward (es1 ++ es2) ->
  fge (elapsed (fst (run (start p sc w0) (es1 ++ es2))))
      (elapsed (fst (run (start p sc w0) es1))) = true.
Proof.
  intros Hall. apply Forall_app in Hall as [H1 H2]. rewrite run_app.
  apply run_elapsed_forward; [exact H2 | apply session_elapsed_nonneg, H1].
Qed.

End FallbackOrder.

Section FallbackClaim.

Context {num : Type} `{Num num}.

Implicit Types (this : QuizAtTime num) (p : Properties num) (w : World).
Implicit Types (ts : list (num * option (Video num))).

(** C4 (fallback accumulation).  [start] leaves [elapsed] at [0.0] and
    the phase Waiting.  From a Waiting state, with ticks that find no
    video: a tick that follows only ticks whose running sum stayed below
    [quizTime] is delivered while Waiting, leaves [elapsed] equal to the
    running sum of the deltas so far, and leaves the phase Active exactly
    when that sum is at least [quizTime]; once a first tick [k] reached
    [quizTime], the phase is Active and [elapsed] keeps the sum of the
    first [k] deltas whatever ticks follow.  The sum is the one the code
    computes: the deltas added to [elapsed] one after the other, in the
    code's arithmetic.  In any state, an event either leaves [elapsed] as
    it was or is a tick taken while Waiting that adds its delta; so in a
    session whose deltas are all [>= 0], [elapsed] never decreases.  That
    last part rests on the order laws of [NumOrder], which binary64
    satisfies ([NumOrder_float]). *)
Theorem fallback_accumulation this w ts :
  phase this = Waiting ->
  Forall (fun t => haveVideo this (snd t) = false) ts ->
  let sum k := fallbackSum (elapsed this) (take k (fst <$> ts)) in
  let after k := fst (run (this, w) (tick <$> take k ts)) in
  (forall p (sc : Scene) w0,
     elapsed (fst (start p sc w0)) = f0 /\ phase (fst (start p sc w0)) = Waiting)
  /\ (forall n,
        0 < n <= length ts ->
        (forall k, 0 < k < n -> fge (sum k) (quizTime (props this)) = false) ->
        phase (after (n - 1)) = Waiting
        /\ elapsed (after n) = sum n
        /\ phase (after n)
           = if fge (sum n) (quizTime (props this)) then Active else Waiting)
  /\ (forall k n,
        0 < k <= n -> n <= length ts ->
        (forall j, 0 < j < k -> fge (sum j) (quizTime (props this)) = false) ->
        fge (sum k) (quizTime (props this)) = true ->
        phase (after n) = Active /\ elapsed (after n) = sum k)
  /\ (forall (s : QuizAtTime num * World) (e : Event num),
        elapsed (fst (step s e)) = elapsed (fst s)
        \/ (phase (fst s) = Waiting
            /\ exists dt video,
                 e = Tick dt video /\ haveVideo (fst s) video = false
                 /\ elapsed (fst (step s e)) = fadd (elapsed (fst s)) dt))
  /\ (NumOrder num ->
      forall p (sc : Scene) w0 (es1 es2 : list (Event num)),
        Forall forward (es1 ++ es2) ->
        fge (elapsed (fst (run (start p sc w0) (es1 ++ es2))))
            (elapsed (fst (run (start p sc w0) es1))) = true).
Proof.
  intros Hp Hall sum after.
  split; [|split; [|split; [|split]]].
  - intros p sc w0. split; reflexivity.
  - intros n Hn Hlow.
    destruct (run_first_hit this w ts n Hp Hall Hn Hlow) as (He & Hph & Hw).
    auto.
  - intros k n [Hk Hkn] Hn Hlow Hhit.
    destruct (run_first_hit this w ts k Hp Hall) as (He & Hph & _); [lia | exact Hlow |].
    fold (sum k) in He, Hph. rewrite Hhit in Hph.
    unfold after.
    rewrite <- (take_drop k (take n ts)), take_take.
    replace (k `min` n) with k by lia.
    rewrite fmap_app, run_app.
    destruct (run (this, w) (tick <$> take k ts)) as [this1 w1]. simpl in He, Hph.
    rewrite run_ticks_later by congruence. simpl. auto.
  - apply step_elapsed.
  - intros HO p sc w0 es1 es2. apply session_elapsed_monotone.
Qed.

End FallbackClaim.

(** ** The clock samples of a session *)

Section Samples.

Context {num : Type} `{Num num}.

Implicit Types (this : QuizAtTime num) (p : Properties num) (w : World).
Implicit Types (ts : list (num * option (Video num))).

Lemma haveVideo_bindings this this' video :
  videoComponent this' = videoComponent this ->
  haveVideo this' video = haveVideo this video.
Proof. unfold haveVideo. intros ->. reflexivity. Qed.

Lemma samples_later (s : QuizAtTime num * World) ts :
  phase (fst s) <> Waiting -> samples s ts = [].
Proof.
  revert s. induction ts as [|t ts IH]; intros [this w] Hp; [reflexivity|].
  simpl in *. unfold tick. rewrite update_skip by exact Hp.
  destruct (phase this) eqn:Hq; [congruence | |]; apply IH; simpl; congruence.
Qed.

Lemma nondecreasing_cons (x : num) (l : list num) :
  nondecreasing (x :: l) = true
  <-> (forall y, head l = Some y -> fge y x = true) /\ nondecreasing l = true.
Proof.
  destruct l as [|y l]; simpl.
  - split; [|reflexivity]. intros _. split; [discriminate | reflexivity].
  - rewrite andb_true_iff. split.
    + intros [Hy Hl]. split; [|exact Hl]. intros ? [= <-]. exact Hy.
    + intros [Hy Hl]. split; [apply Hy; reflexivity | exact Hl].
Qed.

Lemma nondecreasing_take (l : list num) (j : nat) :
  nondecreasing l = true -> nondecreasing (take j l) = true.
Proof.
  revert j. induction l as [|x l IH]; intros j Hl; [destruct j; reflexivity|].
  destruct j as [|j]; [reflexivity|].
  apply nondecreasing_cons in Hl as [Hx Hl].
  change (take (S j) (x :: l)) with (x :: take j l).
  apply nondecreasing_cons. split; [|apply IH, Hl].
  intros y Hy. apply Hx. destruct l, j; simpl in *; congruence.
Qed.

(** With a video at every tick the samples are the first readings. *)
Lemma samples_external (s : QuizAtTime num * World) ts :
  Forall (fun t => haveVideo (fst s) (snd t) = true) ts ->
  exists j, samples s ts = take j (readings ts).
Proof.
  revert s. induction ts as [|[dt video] ts IH]; intros [this w] Hall.
  - exists 0. reflexivity.
  - apply Forall_cons in Hall as [Hv Hall]. simpl in Hv, Hall.
    destruct (phase this) eqn:Hp.
    + destruct (IH (step (this, w) (tick (dt, video)))) as [j Hj].
      { eapply Forall_impl; [exact Hall|]. intros t Ht. simpl in Ht.
        rewrite <- Ht. apply haveVideo_bindings.
        apply (step_bindings (this, w) (tick (dt, video))). }
      destruct (readClock_external this dt video Hv) as (v & -> & Hr).
      exists (S j). simpl. rewrite Hp, Hr. simpl. f_equal. exact Hj.
    + exists 0. apply samples_later. simpl. congruence.
    + exists 0. apply samples_later. simpl. congruence.
Qed.

End Samples.

Section SamplesOrder.

Context {num : Type} `{Num num} `{!NumOrder num}.

Implicit Types (this : QuizAtTime num) (p : Properties num) (w : World).
Implicit Types (ts : list (num * option (Video num))).

(** With no video at any tick the samples are the values of [elapsed]. *)
Lemma samples_fallback (s : QuizAtTime num * World) ts :
  fge (elapsed (fst s)) f0 = true ->
  Forall (fun t => haveVideo (fst s) (snd t) = false /\ fge (fst t) f0 = true) ts ->
  nondecreasing (samples s ts) = true
  /\ forall y, head (samples s ts) = Some y -> fge y (elapsed (fst s)) = true.
Proof.
  revert s. induction ts as [|[dt video] ts IH]; intros [this w] H0 Hall.
  - split; [reflexivity | discriminate].
  - apply Forall_cons in Hall as [[Hv Hdt] Hall]. simpl in H0, Hv, Hdt, Hall.
    destruct (phase this) eqn:Hp.
    + assert (elapsed (fst (step (this, w) (tick (dt, video)))) = fadd (elapsed this) dt) as He.
      { simpl. rewrite update_Waiting by exact Hp. cbv zeta.
        rewrite readClock_fallback by exact Hv. simpl.
        destruct (fge (fadd (elapsed this) dt) _); reflexivity. }
      assert (fge (fadd (elapsed this) dt) (elapsed this) = true) as Hge
        by (apply fge_add; assumption).
      destruct (IH (step (this, w) (tick (dt, video)))) as [Hnd Hhd].
      { rewrite He.
        apply (fge_trans _ (elapsed this) f0); [apply fge_zero | exact H0 | exact Hge]. }
      { eapply Forall_impl; [exact Hall|]. intros t [Ht Ht']. simpl in Ht.
        split; [|exact Ht']. rewrite <- Ht. apply haveVideo_bindings.
        apply (step_bindings (this, w) (tick (dt, video))). }
      rewrite He in Hhd.
      simpl samples. rewrite Hp. rewrite readClock_fallback by exact Hv. simpl snd.
      split.
      * apply nondecreasing_cons. split; [exact Hhd | exact Hnd].
      * intros y [= <-]. exact Hge.
    + rewrite samples_later by (simpl; congruence). split; [reflexivity | discriminate].
    + rewrite samples_later by (simpl; congruence). split; [reflexivity | discriminate].
Qed.

End SamplesOrder.

Section SamplesClaim.

Context {num : Type} `{Num num}.

Implicit Types (this : QuizAtTime num) (p : Properties num) (w : World).
Implicit Types (ts : list (num * option (Video num))).

(** C7, as amended (clock samples).  At every sample the video's
    [currentTime] is used whenever the video is there, and [elapsed] is
    then left alone; [elapsed] is advanced and used only when it is not.
    The samples of successive ticks never decrease when every tick finds
    no video and passes a delta [>= 0], from any state of a session whose
    deltas were all [>= 0] (its fallback clock is then [>= 0]); and when
    every tick finds the video and the video's readings never decrease.
    The fallback part rests on the order laws of [NumOrder], which
    binary64 satisfies ([NumOrder_float]). *)
Theorem clock_samples this w ts :
  (forall dt video,
     haveVideo this video = true ->
     exists v, video = Some v /\ readClock this dt video = (this, currentTime v))
  /\ (forall dt video,
        haveVideo this video = false ->
        readClock this dt video
        = (set_elapsed (fadd (elapsed this) dt) this, fadd (elapsed this) dt))
  /\ (NumOrder num ->
      fge (elapsed this) f0 = true ->
      Forall (fun t => haveVideo this (snd t) = false /\ fge (fst t) f0 = true) ts ->
      nondecreasing (samples (this, w) ts) = true)
  /\ (NumOrder num ->
      forall p (sc : Scene) w0 (es : list (Event num)),
        Forall forward es ->
        fge (elapsed (fst (run (start p sc w0) es))) f0 = true)
  /\ (Forall (fun t => haveVideo this (snd t) = true) ts ->
      nondecreasing (readings ts) = true ->
      nondecreasing (samples (this, w) ts) = true).
Proof.
  split; [|split; [|split; [|split]]].
  - intros dt video. apply readClock_external.
  - intros dt video. apply readClock_fallback.
  - intros HO H0 Hall. apply (samples_fallback (this, w) ts H0 Hall).
  - intros HO p sc w0 es. apply session_elapsed_nonneg.
  - intros Hall Hr. destruct (samples_external (this, w) ts Hall) as [j ->].
    apply nondecreasing_take, Hr.
Qed.

End SamplesClaim.


(** * Binary64 satisfies the order laws

    Facts about the specification of binary64 arithmetic ([SpecFloat]),
    which the primitive floats follow ([FloatAxioms]): rounding a sum of
    two numbers [>= 0] never gives less than either. *)

Section SpecFloatFacts.

Import SpecFloat.
Local Open Scope Z_scope.

Variables prec emax : Z.
Hypothesis Hprec : 0 < prec.

Lemma digits2_pos_bounds (p : positive) :
  2 ^ (Zpos (digits2_pos p) - 1) <= Zpos p < 2 ^ Zpos (digits2_pos p).
Proof.
  induction p as [p IH|p IH|]; simpl digits2_pos.
  - rewrite Pos2Z.inj_succ.
    replace (Z.succ (Zpos (digits2_pos p)) - 1) with (Z.succ (Zpos (digits2_pos p) - 1)) by lia.
    rewrite !Z.pow_succ_r by lia. lia.
  - rewrite Pos2Z.inj_succ.
    replace (Z.succ (Zpos (digits2_pos p)) - 1) with (Z.succ (Zpos (digits2_pos p) - 1)) by lia.
    rewrite !Z.pow_succ_r by lia. lia.
  - simpl. lia.
Qed.

Lemma digits2_pos_ge (p : positive) (k : Z) :
  0 <= k -> 2 ^ k <= Zpos p -> k < Zpos (digits2_pos p).
Proof.
  intros Hk Hp. destruct (digits2_pos_bounds p) as [_ Hu].
  destruct (Z_lt_le_dec k (Zpos (digits2_pos p))) as [|Hle]; [assumption|].
  pose proof (Z.pow_le_mono_r 2 _ _ ltac:(lia) Hle). lia.
Qed.

Lemma digits2_pos_le (p : positive) (k : Z) :
  0 <= k -> Zpos p < 2 ^ k -> Zpos (digits2_pos p) <= k.
Proof.
  intros Hk Hp. destruct (digits2_pos_bounds p) as [Hl _].
  destruct (Z_le_gt_dec (Zpos (digits2_pos p)) k) as [|Hgt]; [assumption|].
  pose proof (Z.pow_le_mono_r 2 k (Zpos (digits2_pos p) - 1) ltac:(lia) ltac:(lia)). lia.
Qed.

Lemma iter_xO (m d : positive) : Zpos (Pos.iter xO m d) = Zpos m * 2 ^ Zpos d.
Proof.
  induction d as [|d IH] using Pos.peano_ind.
  - simpl. lia.
  - rewrite Pos.iter_succ, Pos2Z.inj_xO, IH, Pos2Z.inj_succ, Z.pow_succ_r by lia. lia.
Qed.

Lemma shl_align_spec (m : positive) (e e' : Z) :
  snd (shl_align m e e') = Z.min e e'
  /\ Zpos (fst (shl_align m e e')) = Zpos m * 2 ^ (e - Z.min e e').
Proof.
  unfold shl_align. destruct (e' - e) as [|d|d] eqn:Hd; simpl.
  - replace (Z.min e e') with e by lia. rewrite Z.sub_diag. simpl. lia.
  - replace (Z.min e e') with e by lia. rewrite Z.sub_diag. simpl. lia.
  - replace (Z.min e e') with e' by lia.
    replace (e - e') with (Zpos d) by lia. split; [reflexivity | apply iter_xO].
Qed.

Lemma shr_1_m (mrs : shr_record) :
  0 <= shr_m mrs -> shr_m (shr_1 mrs) = shr_m mrs / 2.
Proof.
  destruct mrs as [m r s]. simpl. intros Hm.
  destruct m as [|[p|p|]|p]; simpl; try lia; try reflexivity.
  - apply Z.div_unique with (r := 1); lia.
  - apply Z.div_unique with (r := 0); lia.
Qed.

Lemma iter_shr_1 (n : positive) (mrs : shr_record) :
  0 <= shr_m mrs ->
  shr_m (SpecFloat.iter_pos shr_1 n mrs) = shr_m mrs / 2 ^ Zpos n.
Proof.
  revert mrs. induction n as [n IH|n IH|]; intros mrs Hm; simpl SpecFloat.iter_pos.
  - assert (0 < 2 ^ Zpos n) as Hpow by (apply Z.pow_pos_nonneg; lia).
    assert (0 <= shr_m (shr_1 mrs)) as H1 by (rewrite shr_1_m by lia; apply Z.div_pos; lia).
    assert (0 <= shr_m (SpecFloat.iter_pos shr_1 n (shr_1 mrs))) as H2
      by (rewrite IH by lia; apply Z.div_pos; lia).
    rewrite IH, IH, shr_1_m by lia.
    rewrite !Z.div_div by lia.
    f_equal.
    assert (2 ^ Zpos n~1 = 2 * (2 ^ Zpos n * 2 ^ Zpos n)) as ->; [|lia].
    rewrite <- Z.pow_add_r, <- Z.pow_succ_r by lia. f_equal. lia.
  - assert (0 < 2 ^ Zpos n) as Hpow by (apply Z.pow_pos_nonneg; lia).
    assert (0 <= shr_m (SpecFloat.iter_pos shr_1 n mrs)) as H2
      by (rewrite IH by lia; apply Z.div_pos; lia).
    rewrite IH, IH by lia.
    rewrite !Z.div_div by lia.
    f_equal.
    assert (2 ^ Zpos n~0 = 2 ^ Zpos n * 2 ^ Zpos n) as ->; [|lia].
    rewrite <- Z.pow_add_r by lia. f_equal. lia.
  - rewrite shr_1_m by lia. reflexivity.
Qed.

Lemma shr_fexp_spec (m e : Z) (l : location) :
  0 <= m ->
  let n := Z.max (SpecFloat.fexp prec emax (Zdigits2 m + e) - e) 0 in
  shr_m (fst (shr_fexp prec emax m e l)) = m / 2 ^ n
  /\ snd (shr_fexp prec emax m e l) = e + n.
Proof.
  intros Hm n. unfold shr_fexp, shr.
  assert (shr_m (shr_record_of_loc m l) = m) as Hrec by (destruct l as [|[]]; reflexivity).
  subst n. destruct (SpecFloat.fexp prec emax (Zdigits2 m + e) - e) as [|d|d] eqn:Hd; simpl fst; simpl snd.
  - rewrite Hrec. simpl. rewrite Z.div_1_r. lia.
  - rewrite iter_shr_1 by lia. rewrite Hrec.
    replace (Z.max (Zpos d) 0) with (Zpos d) by lia. split; reflexivity.
  - rewrite Hrec. replace (Z.max (Zneg d) 0) with 0 by lia. simpl. rewrite Z.div_1_r. lia.
Qed.

Lemma round_nearest_even_bounds (m : Z) (l : location) :
  m <= round_nearest_even m l <= m + 1.
Proof. destruct l as [|[]]; simpl; try lia. destruct (Z.even m); lia. Qed.

Lemma digits2_pos_scaled (m M : positive) (k : Z) :
  0 <= k -> Zpos m * 2 ^ k <= Zpos M ->
  Zpos (digits2_pos m) + k <= Zpos (digits2_pos M).
Proof.
  intros Hk HM. destruct (digits2_pos_bounds m) as [Hl _].
  assert (2 ^ (Zpos (digits2_pos m) - 1 + k) <= Zpos M) as Hp.
  { rewrite Z.pow_add_r by lia.
    pose proof (Z.pow_pos_nonneg 2 k ltac:(lia) Hk).
    apply Z.le_trans with (Zpos m * 2 ^ k); [|exact HM].
    apply Z.mul_le_mono_nonneg_r; lia. }
  pose proof (digits2_pos_ge M (Zpos (digits2_pos m) - 1 + k) ltac:(lia) Hp). lia.
Qed.

Lemma digits2_pos_shift (m M : positive) (k : Z) :
  0 <= k -> Zpos M = Zpos m * 2 ^ k ->
  Zpos (digits2_pos M) = Zpos (digits2_pos m) + k.
Proof.
  intros Hk HM. destruct (digits2_pos_bounds m) as [Hl Hu].
  pose proof (digits2_pos_scaled m M k Hk ltac:(lia)).
  assert (Zpos M < 2 ^ (Zpos (digits2_pos m) + k)) as Hp.
  { rewrite Z.pow_add_r by lia.
    pose proof (Z.pow_pos_nonneg 2 k ltac:(lia) Hk).
    rewrite HM. apply Z.mul_lt_mono_pos_r; lia. }
  pose proof (digits2_pos_le M (Zpos (digits2_pos m) + k) ltac:(lia) Hp). lia.
Qed.

(** A positive integer survives a right shift by fewer bits than it has. *)
Lemma shift_pos (m : Z) (p : positive) (n : Z) :
  m = Zpos p -> 0 <= n < Zpos (digits2_pos p) -> 1 <= m / 2 ^ n.
Proof.
  intros -> Hn. destruct (digits2_pos_bounds p) as [Hl _].
  assert (0 < 2 ^ n) as Hpow by (apply Z.pow_pos_nonneg; lia).
  apply Z.div_le_lower_bound; [lia|].
  pose proof (Z.pow_le_mono_r 2 n (Zpos (digits2_pos p) - 1) ltac:(lia) ltac:(lia)). lia.
Qed.

(** Rounding a sum that is at least [mx * 2^ex] gives at least that float,
    in the order [SFcompare] reads off canonical exponents and mantissas. *)
Lemma binary_round_ge (mx : positive) (ex : Z) (M : positive) (ez : Z) :
  canonical_mantissa prec emax mx ex = true ->
  ez <= ex ->
  Zpos mx * 2 ^ (ex - ez) <= Zpos M ->
  SFleb (S754_finite false mx ex) (binary_round prec emax false M ez) = true.
Proof.
  intros Hcan Hez HM.
  apply Z.eqb_eq in Hcan.
  unfold binary_round.
  set (E := SpecFloat.fexp prec emax (Zpos (digits2_pos M) + ez)).
  destruct (shl_align_spec M ez E) as [He2 HM2].
  destruct (shl_align M ez E) as [M2 e2]. simpl in He2, HM2.
  rewrite <- He2 in HM2.
  assert (e2 <= ez /\ e2 <= E) as [He2z He2E] by lia.
  pose proof (digits2_pos_scaled mx M (ex - ez) ltac:(lia) HM) as HdM.
  pose proof (digits2_pos_shift M M2 (ez - e2) ltac:(lia) HM2) as HdM2.
  assert (SpecFloat.emin prec emax <= ex) as Hemin by (unfold SpecFloat.fexp in Hcan; lia).
  assert (ex <= E) as HexE by (unfold E, SpecFloat.fexp in *; lia).
  unfold binary_round_aux.
  destruct (shr_fexp_spec (Zpos M2) e2 loc_Exact ltac:(lia)) as [Hm1 He1].
  destruct (shr_fexp prec emax (Zpos M2) e2 loc_Exact) as [mrs1 e1]. simpl in Hm1, He1.
  replace (SpecFloat.fexp prec emax (Zpos (digits2_pos M2) + e2)) with E in Hm1, He1
    by (unfold E; f_equal; lia).
  replace (Z.max (E - e2) 0) with (E - e2) in Hm1, He1 by lia.
  replace (e2 + (E - e2)) with E in He1 by lia. subst e1.
  assert (0 < 2 ^ (E - e2)) as Hpow by (apply Z.pow_pos_nonneg; lia).
  assert (1 <= shr_m mrs1 /\ (E = ex -> Zpos mx <= shr_m mrs1)) as [Hm1pos Hm1ge].
  { assert (E = ex -> Zpos mx <= shr_m mrs1) as Hge.
    { intros HE. rewrite Hm1. apply Z.div_le_lower_bound; [lia|].
      rewrite HM2.
      replace (E - e2) with ((ex - ez) + (ez - e2)) by lia.
      rewrite Z.pow_add_r by lia.
      pose proof (Z.pow_pos_nonneg 2 (ez - e2) ltac:(lia) ltac:(lia)). nia. }
    split; [|exact Hge].
    destruct (Z.eq_dec E ex) as [HE|HE]; [specialize (Hge HE); lia|].
    rewrite Hm1. apply (shift_pos _ M2); [reflexivity|].
    unfold E, SpecFloat.fexp in *. lia. }
  set (m2 := round_nearest_even (shr_m mrs1) (loc_of_shr_record mrs1)).
  pose proof (round_nearest_even_bounds (shr_m mrs1) (loc_of_shr_record mrs1)) as Hm2.
  fold m2 in Hm2.
  destruct (shr_fexp_spec m2 E loc_Exact ltac:(lia)) as [Hm3 He3].
  destruct (shr_fexp prec emax m2 E loc_Exact) as [mrs2 e3]. simpl in Hm3, He3.
  destruct m2 as [|p2|p2] eqn:Hp2; try lia.
  simpl Zdigits2 in Hm3, He3.
  set (n2 := Z.max (SpecFloat.fexp prec emax (Zpos (digits2_pos p2) + E) - E) 0) in *.
  assert (SpecFloat.emin prec emax <= E) as HeminE by lia.
  assert (0 <= n2 < Zpos (digits2_pos p2)) as Hn2.
  { pose proof (Pos2Z.is_pos (digits2_pos p2)).
    unfold n2, SpecFloat.fexp. lia. }
  assert (1 <= shr_m mrs2) as Hm3pos by (rewrite Hm3; apply (shift_pos _ p2); [reflexivity | exact Hn2]).
  assert (e3 = ex -> Zpos mx <= shr_m mrs2) as Hm3ge.
  { intros He. assert (n2 = 0) as Hn0 by lia. assert (E = ex) as HE by lia.
    rewrite Hm3, Hn0. simpl. rewrite Z.div_1_r. specialize (Hm1ge HE). lia. }
  destruct (shr_m mrs2) as [|m3|m3]; try lia.
  destruct (e3 <=? emax - prec); [|reflexivity].
  unfold SFleb, SFcompare.
  destruct (Z.compare_spec ex e3) as [Heq|Hlt|Hgt]; try reflexivity; [|lia].
  specialize (Hm3ge (eq_sym Heq)).
  change (Pos.compare_cont Eq mx m3) with (Pos.compare mx m3).
  destruct (Pos.compare_spec mx m3); try reflexivity. lia.
Qed.

Lemma SFleb_refl (x : spec_float) : SFnonneg x -> SFleb x x = true.
Proof.
  unfold SFnonneg, SFleb.
  destruct x as [s|[|]| |[|] m e]; simpl; try discriminate; try reflexivity.
  intros _. rewrite Z.compare_refl.
  change (Pos.compare_cont Eq m m) with (Pos.compare m m).
  rewrite Pos.compare_refl. reflexivity.
Qed.

Lemma SFleb_trans (x y z : spec_float) :
  SFnonneg x -> SFleb x y = true -> SFleb y z = true -> SFleb x z = true.
Proof.
  unfold SFnonneg, SFleb.
  destruct x as [sx|[|]| |[|] mx ex]; simpl; try discriminate;
    destruct y as [sy|[|]| |[|] my ey]; simpl; try discriminate;
    destruct z as [sz|[|]| |[|] mz ez]; simpl; try discriminate; try reflexivity.
  intros _.
  change (Pos.compare_cont Eq mx my) with (Pos.compare mx my).
  change (Pos.compare_cont Eq my mz) with (Pos.compare my mz).
  change (Pos.compare_cont Eq mx mz) with (Pos.compare mx mz).
  destruct (Z.compare_spec ex ey), (Z.compare_spec ey ez), (Z.compare_spec ex ez);
    try discriminate; try reflexivity; try lia;
    destruct (Pos.compare_spec mx my), (Pos.compare_spec my mz), (Pos.compare_spec mx mz);
    try discriminate; try reflexivity; lia.
Qed.

(** Adding a number [>= 0] to a number [>= 0] never gives less. *)
Lemma SFadd_ge (x d : spec_float) :
  SpecFloat.valid_binary prec emax x = true ->
  SFnonneg x -> SFnonneg d ->
  SFleb x (SFadd prec emax x d) = true.
Proof.
  unfold SFnonneg. intros Hv Hx Hd.
  destruct x as [sx|[|]| |[|] mx ex]; try discriminate Hx;
    destruct d as [sd|[|]| |[|] md ed]; try discriminate Hd;
    try (destruct sx); try (destruct sd); try reflexivity.
  - apply SFleb_refl. reflexivity.
  - apply SFleb_refl. reflexivity.
  - simpl in Hv. apply andb_true_iff in Hv as [Hcan _].
    unfold SFadd.
    destruct (shl_align_spec mx ex (Z.min ex ed)) as [_ Hmx].
    destruct (shl_align_spec md ed (Z.min ex ed)) as [_ Hmd].
    replace (Z.min ex (Z.min ex ed)) with (Z.min ex ed) in Hmx by lia.
    simpl cond_Zopp. simpl Z.add. unfold binary_normalize.
    apply binary_round_ge; [exact Hcan | lia |].
    rewrite Pos2Z.inj_add, Hmx. lia.
Qed.

End SpecFloatFacts.

Section Binary64.

Import SpecFloat FloatOps FloatAxioms.

Lemma float_zero : Prim2SF 0%float = S754_zero false.
Proof. reflexivity. Qed.

Lemma float_leb_refl (x : float) :
  PrimFloat.leb 0 x = true -> PrimFloat.leb x x = true.
Proof. rewrite !leb_spec, float_zero. apply SFleb_refl. Qed.

Lemma float_leb_trans (x y z : float) :
  PrimFloat.leb 0 x = true -> PrimFloat.leb x y = true -> PrimFloat.leb y z = true ->
  PrimFloat.leb x z = true.
Proof. rewrite !leb_spec, float_zero. apply SFleb_trans. Qed.

Lemma float_add_ge (x d : float) :
  PrimFloat.leb 0 x = true -> PrimFloat.leb 0 d = true ->
  PrimFloat.leb x (x + d) = true.
Proof.
  rewrite !leb_spec, add_spec, float_zero. intros Hx Hd.
  apply SFadd_ge; [reflexivity | apply Prim2SF_valid | exact Hx | exact Hd].
Qed.

End Binary64.

(** The doubles the code adds and compares satisfy the order laws. *)
#[export] Instance NumOrder_float : NumOrder float.
Proof.
  split; simpl.
  - reflexivity.
  - intros x. apply float_leb_refl.
  - intros x y z Hz Hzy Hyx. exact (float_leb_trans z y x Hz Hzy Hyx).
  - intros x d. apply float_add_ge.
Qed.

(** * The concrete sessions, run *)

(** The scenario of the specification: three ticks reveal the quiz, a
    wrong answer keeps it open, the right one completes it, and a further
    click changes nothing. *)
Example scenario_reveal :
  let s := run demoStart (tick <$> demoTicks) in
  phase (fst s) = Active
  /\ elapsed (fst s) = 3%float
  /\ active (snd s) !! 2%positive = Some true
  /\ active (snd s) !! 5%positive = Some true
  /\ text (snd s) !! 11%positive = Some ""
  /\ calls (snd s) = [].
Proof. vm_compute. repeat split. Qed.

Example scenario_answers :
  let s1 := run demoStart (tick <$> demoTicks) in
  let s2 := step s1 (Click "B" None) in
  let s3 := step s2 (Click "A" (Some {| currentTime := 3%float |})) in
  let s4 := step s3 (Click "A" (Some {| currentTime := 4%float |})) in
  (phase (fst s2) = Active
   /\ text (snd s2) !! 11%positive = Some " Wrong answer, try again"
   /\ active (snd s2) !! 3%positive = Some true)
  /\ (phase (fst s3) = Completed
      /\ text (snd s3) !! 11%positive = Some "CORRECT!!!"
      /\ active (snd s3) !! 2%positive = Some false
      /\ calls (snd s3) = [VideoPlay])
  /\ s4 = s3.
Proof. vm_compute. repeat split. Qed.

(** The bounds of C1 and C2 are reached in the demo session. *)
Example scenario_counts :
  let es := (tick <$> demoTicks)
            ++ [Click "B" None; Click "A" None; Click "A" None; Tick 1%float None] in
  reveals demoStart es = 1 /\ successes demoStart es = 1
  /\ phase (fst (run demoStart es)) = Completed.
Proof. vm_compute. repeat split. Qed.

(** C3, at the start of the demo session: a click before the quiz is
    shown is dropped. *)
Lemma answer_gating_witness :
  phase (fst demoStart) = Waiting
  /\ _onAnswer (fst demoStart) (snd demoStart) "A" None
     = (fst demoStart, snd demoStart).
Proof.
  split; [reflexivity|].
  apply answer_gating. left. reflexivity.
Defined.

(** C9, in the demo session after the three ticks: button A is visible. *)
Lemma buttons_track_phase_witness :
  bound demoProps 2%positive
  /\ active (snd (run (start demoProps demoScene emptyWorld) (tick <$> demoTicks)))
       !! 2%positive
     = Some true.
Proof.
  assert (bound demoProps 2%positive) as Hb by (left; reflexivity).
  split; [exact Hb|].
  exact (buttons_track_phase demoProps demoScene emptyWorld (tick <$> demoTicks) _ Hb).
Defined.

(** C5, in the demo session: two wrong answers in a row. *)
Lemma retry_loop_witness :
  let s := run (start demoProps demoScene emptyWorld) (tick <$> demoTicks) in
  let s' := run s [Click "B" None; Click "C" None] in
  phase (fst s) = Active
  /\ fst s' = fst s
  /\ active (snd s') = active (snd s)
  /\ calls (snd s') = calls (snd s)
  /\ text (snd s') = <[11%positive := " Wrong answer, try again"]> (text (snd s)).
Proof.
  assert (phase (fst (run (start demoProps demoScene emptyWorld) (tick <$> demoTicks)))
          = Active) as Hp by reflexivity.
  assert (Forall (fun c : string * option (Video float) => fst c <> correctAnswer demoProps)
            [("B", None); ("C", None)]) as Hall.
  { apply Forall_cons. split; [discriminate|].
    apply Forall_cons. split; [discriminate|]. apply Forall_nil_2. }
  destruct (retry_loop demoProps demoScene emptyWorld (tick <$> demoTicks)
              [("B", None); ("C", None)] Hp Hall)
    as (Hc & _ & Ha & _ & Hk & Ht).
  cbv zeta. split; [exact Hp|]. split; [exact Hc|]. split; [exact Ha|].
  split; [exact Hk | exact Ht].
Defined.

(** The sums are the code's: ten frames of the double nearest to 0.1
    add up to 0.9999999999999999, short of a [quizTime] of 1, and the
    quiz is shown at the eleventh frame. *)
Example scenario_rounding :
  let s10 := run (start tenthProps demoScene emptyWorld) (tick <$> tenthTicks) in
  let s11 := step s10 (Tick 0x1.999999999999ap-4%float None) in
  phase (fst s10) = Waiting
  /\ elapsed (fst s10) = 0x1.fffffffffffffp-1%float
  /\ phase (fst s11) = Active.
Proof. vm_compute. repeat split. Qed.

(** C4, with nothing but a button bound: four ticks of one second
    against a [quizTime] of 3.  The third tick is the first whose running
    sum reaches 3; [elapsed] stays at 3 after the fourth, and is no less
    after four ticks than after two. *)
Lemma fallback_accumulation_witness :
  phase (fst bareStart) = Waiting
  /\ Forall (fun t => haveVideo (fst bareStart) (snd t) = false) bareTicks
  /\ phase (fst (run bareStart (tick <$> take 2 bareTicks))) = Waiting
  /\ elapsed (fst (run bareStart (tick <$> take 3 bareTicks))) = 3%float
  /\ phase (fst (run bareStart (tick <$> take 3 bareTicks))) = Active
  /\ elapsed (fst (run bareStart (tick <$> take 4 bareTicks))) = 3%float
  /\ fge (elapsed (fst (run bareStart
                          ((tick <$> take 2 bareTicks) ++ (tick <$> drop 2 bareTicks)))))
         (elapsed (fst (run bareStart (tick <$> take 2 bareTicks)))) = true.
Proof.
  assert (phase (fst bareStart) = Waiting) as Hp by reflexivity.
  assert (Forall (fun t : float * option (Video float) =>
                    haveVideo (fst bareStart) (snd t) = false)
            bareTicks) as Hall.
  { repeat (apply Forall_cons; split; [reflexivity|]). apply Forall_nil_2. }
  assert (forall k, 0 < k < 3 ->
            fge (fallbackSum (elapsed (fst bareStart)) (take k (fst <$> bareTicks)))
                (quizTime (props (fst bareStart))) = false) as Hlow.
  { intros k Hk. assert (k = 1 \/ k = 2) as [-> | ->] by lia; reflexivity. }
  assert (Forall forward ((tick <$> take 2 bareTicks) ++ (tick <$> drop 2 bareTicks)))
    as Hfw.
  { repeat (apply Forall_cons; split; [reflexivity|]). apply Forall_nil_2. }
  destruct (fallback_accumulation (fst bareStart) (snd bareStart) bareTicks Hp Hall)
    as (_ & Hfirst & Hfrozen & _ & Hmono).
  destruct (Hfirst 3) as (Hw & He & Ha); [simpl; lia | exact Hlow |].
  destruct (Hfrozen 3 4) as (_ & He4); [lia | simpl; lia | exact Hlow | reflexivity |].
  split; [exact Hp|]. split; [exact Hall|]. split; [exact Hw|].
  split; [exact He|]. split; [exact Ha|]. split; [exact He4|].
  exact (Hmono NumOrder_float bareProps demoScene emptyWorld _ _ Hfw).
Defined.

(** C7 as stated fails.  In the demo session the video is not loaded at
    the first tick and is at 0.5 s at the second; both deltas are
    [>= 0] and the video's own readings never decrease, yet the samples
    are 1 and then 0.5. *)
Lemma clock_samples_can_decrease :
  let ts := [(1%float, None); (1%float, Some {| currentTime := 0.5%float |})] in
  Forall (fun t => fge (fst t) f0 = true) ts
  /\ nondecreasing (readings ts) = true
  /\ samples demoStart ts = [1%float; 0.5%float]
  /\ nondecreasing (samples demoStart ts) = false.
Proof.
  cbv zeta. split; [|repeat split].
  repeat (apply Forall_cons; split; [reflexivity|]). apply Forall_nil_2.
Qed.

(** C7 as amended: the fallback samples 1, 2, 3 of the bare session. *)
Lemma clock_samples_witness :
  samples bareStart bareTicks = [1%float; 2%float; 3%float]
  /\ nondecreasing (samples bareStart bareTicks) = true.
Proof.
  split; [reflexivity|].
  destruct (clock_samples (fst bareStart) (snd bareStart) bareTicks)
    as (_ & _ & Hfallback & _).
  apply (Hfallback NumOrder_float); [reflexivity|].
  repeat (apply Forall_cons; split; [split; reflexivity|]). apply Forall_nil_2.
Defined.

(** * Further properties of the component *)

(** ** What [start] leaves behind *)

Section Start.

Context {num : Type} `{Num num}.

Implicit Types (this : QuizAtTime num) (p : Properties num) (w : World).

Lemma setupButton_listeners (object : option positive) (answer : string) w (o : positive) :
  listeners (_setupButton object answer w) !! o
  = if decide (object = Some o)
    then Some (default [] (listeners w !! o) ++ [answer])
    else listeners w !! o.
Proof.
  destruct object as [b|]; unfold _setupButton, addListener, call; cbn [listeners].
  - rewrite lookup_insert.
    destruct (decide (b = o)) as [->|Hne].
    + rewrite decide_True by reflexivity. reflexivity.
    + rewrite decide_False by congruence. reflexivity.
  - rewrite decide_False by discriminate. reflexivity.
Qed.

Lemma setupButton_frame (object : option positive) (answer : string) w :
  active (_setupButton object answer w) = active w
  /\ text (_setupButton object answer w) = text w
  /\ calls (_setupButton object answer w)
     = match object with Some _ => [] | None => [Warn answer] end ++ calls w.
Proof. destruct object; simpl; auto. Qed.

(** The world [start] works on once the feedback object is hidden. *)
Lemma start_world p (sc : Scene) w0 :
  snd (start p sc w0)
  = _setButtonsActive (fst (start p sc w0)) false
      (_setupButton (buttonC p) "C"
         (_setupButton (buttonB p) "B"
            (_setupButton (buttonA p) "A"
               (match feedbackObject p with
                | Some o => setActive o false w0
                | None => w0
                end)))).
Proof. reflexivity. Qed.

Lemma start_listeners p (sc : Scene) w0 (o : positive) :
  listeners (snd (start p sc w0)) !! o
  = if decide (bound p o)
    then Some (default [] (listeners w0 !! o) ++ labelsOf p o)
    else listeners w0 !! o.
Proof.
  rewrite start_world.
  rewrite (proj1 (proj2 (setButtonsActive_frame _ _ _))).
  rewrite !setupButton_listeners.
  assert (listeners (match feedbackObject p with
                     | Some o0 => setActive o0 false w0
                     | None => w0
                     end) = listeners w0) as -> by (destruct (feedbackObject p); reflexivity).
  unfold labelsOf, bound.
  destruct (decide (buttonA p = Some o)) as [Ha|Ha],
           (decide (buttonB p = Some o)) as [Hb|Hb],
           (decide (buttonC p = Some o)) as [Hc|Hc];
    simpl; rewrite <- ?app_assoc; simpl;
    try (rewrite decide_True by tauto; rewrite ?app_nil_r; reflexivity).
  rewrite decide_False by tauto. reflexivity.
Qed.

Lemma start_calls p (sc : Scene) w0 :
  calls (snd (start p sc w0)) = unboundWarnings p ++ calls w0.
Proof.
  rewrite start_world.
  rewrite (proj2 (proj2 (setButtonsActive_frame _ _ _))).
  rewrite !(proj2 (proj2 (setupButton_frame _ _ _))).
  unfold unboundWarnings. rewrite <- !app_assoc.
  destruct (feedbackObject p); reflexivity.
Qed.

(** X1 (wiring).  After [start], an object bound to answer slots has, on
    its click target, the listeners it had before followed by one
    listener per slot it is bound to, in the order A, B, C, each
    forwarding its slot's label; the listeners of every other object are
    as before.  One warning is logged per empty slot and no other call is
    made. *)
Theorem start_wiring p (sc : Scene) w0 (o : positive) :
  listeners (snd (start p sc w0)) !! o
  = (if decide (bound p o)
     then Some (default [] (listeners w0 !! o) ++ labelsOf p o)
     else listeners w0 !! o)
  /\ calls (snd (start p sc w0)) = unboundWarnings p ++ calls w0.
Proof.
  split.
  - apply start_listeners.
  - apply start_calls.
Qed.

Lemma start_active p (sc : Scene) w0 (o : positive) :
  active (snd (start p sc w0)) !! o
  = if decide (bound p o \/ feedbackObject p = Some o)
    then Some false
    else active w0 !! o.
Proof.
  rewrite start_world. rewrite setButtonsActive_lookup.
  change (props (fst (start p sc w0))) with p.
  rewrite !(proj1 (setupButton_frame _ _ _)).
  destruct (decide (bound p o)) as [Hb|Hb].
  - rewrite decide_True by tauto. reflexivity.
  - destruct (feedbackObject p) as [fo|]; simpl.
    + rewrite lookup_insert.
      destruct (decide (fo = o)) as [->|Hne].
      * rewrite decide_True by tauto. reflexivity.
      * rewrite decide_False; [reflexivity|]. intros [?|[= ?]]; tauto.
    + rewrite decide_False; [reflexivity|]. intros [?|?]; [tauto | discriminate].
Qed.

Lemma start_text p (sc : Scene) w0 : text (snd (start p sc w0)) = text w0.
Proof.
  rewrite start_world.
  rewrite (proj1 (setButtonsActive_frame _ _ _)).
  rewrite !(proj1 (proj2 (setupButton_frame _ _ _))).
  destruct (feedbackObject p); reflexivity.
Qed.

(** X2 (initial visibility).  After [start], every bound button and the
    feedback object are hidden, every other object's flag is as before,
    no text has changed, and the component is Waiting with a zero
    fallback clock. *)
Theorem start_hides p (sc : Scene) w0 (o : positive) :
  active (snd (start p sc w0)) !! o
  = (if decide (bound p o \/ feedbackObject p = Some o)
     then Some false
     else active w0 !! o)
  /\ text (snd (start p sc w0)) = text w0
  /\ phase (fst (start p sc w0)) = Waiting
  /\ elapsed (fst (start p sc w0)) = f0.
Proof.
  split; [apply start_active|].
  split; [apply start_text|].
  split; reflexivity.
Qed.

End Start.

(** ** What every run keeps *)

Section Runs.

Context {num : Type} `{Num num}.

Implicit Types (this : QuizAtTime num) (p : Properties num) (w : World).
Implicit Types (s : QuizAtTime num * World) (e : Event num) (es : list (Event num)).

Lemma reveal_listeners this video w : listeners (reveal this video w) = listeners w.
Proof.
  unfold reveal.
  rewrite (proj1 (showFeedback_frame _ _ _)), (proj1 (proj2 (setButtonsActive_frame _ _ _))).
  destruct (haveVideo this video); reflexivity.
Qed.

Lemma succeed_listeners this video w : listeners (succeed this video w) = listeners w.
Proof.
  unfold succeed. rewrite (proj1 (proj2 (setButtonsActive_frame _ _ _))).
  destruct (audioSource this), (haveVideo this video); simpl;
    apply (proj1 (showFeedback_frame _ _ _)).
Qed.

(** Each step, by the phase it is taken in. *)
Lemma step_cases s e :
  step s e = s
  \/ (phase (fst s) = Waiting
      /\ exists dt video,
           e = Tick dt video
           /\ ((fge (snd (readClock (fst s) dt video)) (quizTime (props (fst s))) = false
                /\ step s e = (fst (readClock (fst s) dt video), snd s))
               \/ (fge (snd (readClock (fst s) dt video)) (quizTime (props (fst s))) = true
                   /\ step s e = (set_quizShown true (fst (readClock (fst s) dt video)),
                                  reveal (fst s) video (snd s)))))
  \/ (phase (fst s) = Active
      /\ exists answer video,
           e = Click answer video
           /\ ((answer <> correctAnswer (props (fst s))
                /\ step s e = (fst s, retry (fst s) (snd s)))
               \/ (answer = correctAnswer (props (fst s))
                   /\ step s e = (set_quizCompleted true (set_quizShown false (fst s)),
                                  succeed (fst s) video (snd s))))).
Proof.
  destruct s as [this w]. simpl fst. simpl snd.
  destruct (phase this) eqn:Hp, e as [dt video|answer video]; simpl step.
  - right. left. split; [reflexivity|]. exists dt, video. split; [reflexivity|].
    destruct (fge (snd (readClock this dt video)) (quizTime (props this))) eqn:Hge.
    + right. split; [reflexivity|]. apply update_reveal; assumption.
    + left. split; [reflexivity|]. apply update_wait; assumption.
  - left. apply onAnswer_skip. congruence.
  - left. apply update_skip. congruence.
  - right. right. split; [reflexivity|]. exists answer, video. split; [reflexivity|].
    destruct (decide (answer = correctAnswer (props this))) as [He|He].
    + right. split; [exact He|]. apply onAnswer_succeed; assumption.
    + left. split; [exact He|]. apply onAnswer_retry; assumption.
  - left. apply update_skip. congruence.
  - left. apply onAnswer_skip. congruence.
Qed.

Lemma step_listeners s e : listeners (snd (step s e)) = listeners (snd s).
Proof.
  destruct (step_cases s e)
    as [-> | [(_ & dt & video & _ & [[_ ->] | [_ ->]])
            | (_ & answer & video & _ & [[_ ->] | [_ ->]])]]; simpl.
  - reflexivity.
  - reflexivity.
  - apply reveal_listeners.
  - apply (proj1 (showFeedback_frame _ _ _)).
  - apply succeed_listeners.
Qed.

Lemma run_listeners s es : listeners (snd (run s es)) = listeners (snd s).
Proof.
  induction es as [|e es IH] using rev_ind; [reflexivity|].
  rewrite run_snoc, step_listeners. exact IH.
Qed.

(** X3 (bindings are looked up once).  Along every run from [start] the
    properties are the configured ones, the video and text components
    are the ones [start] found on the bound objects (none when the object
    is not bound), and the click listeners are the ones [start]
    registered: [update] and [_onAnswer] never look a component up again
    and never add or remove a listener. *)
Theorem bindings_fixed p (sc : Scene) w0 es :
  let s := run (start p sc w0) es in
  props (fst s) = p
  /\ videoComponent (fst s)
     = match videoObject p with Some o => getVideoTexture sc o | None => None end
  /\ feedbackText (fst s)
     = match feedbackObject p with Some o => getText sc o | None => None end
  /\ listeners (snd s) = listeners (snd (start p sc w0)).
Proof.
  cbv zeta.
  destruct (run_bindings (start p sc w0) es) as (Hp & Hv & Ht & _).
  split; [exact Hp|]. split; [exact Hv|]. split; [exact Ht|].
  apply run_listeners.
Qed.

Lemma step_rank s e : rank (phase (fst s)) <= rank (phase (fst (step s e))).
Proof.
  pose proof (step_phase s e) as Hs.
  destruct (phase (fst s)); simpl.
  - lia.
  - destruct Hs as [-> | ->]; simpl; lia.
  - rewrite Hs. simpl. lia.
Qed.

(** X4 (the phase only advances).  Along every run from any state the
    phase never moves back in the order Waiting, Active, Completed. *)
Theorem phase_never_regresses s es1 es2 :
  rank (phase (fst (run s es1))) <= rank (phase (fst (run s (es1 ++ es2)))).
Proof.
  rewrite run_app. generalize (run s es1) as s1. clear s es1.
  induction es2 as [|e es IH] using rev_ind; intros s1; [simpl; lia|].
  rewrite run_snoc. specialize (IH s1).
  pose proof (step_rank (run s1 es) e). lia.
Qed.

Lemma step_exclusive s e :
  quizShown (fst s) && quizCompleted (fst s) = false ->
  quizShown (fst (step s e)) && quizCompleted (fst (step s e)) = false.
Proof.
  intros Hx.
  destruct (step_cases s e)
    as [-> | [(Hp & dt & video & _ & [[_ ->] | [_ ->]])
            | (Hp & answer & video & _ & [[_ ->] | [_ ->]])]]; simpl.
  - exact Hx.
  - destruct (readClock_frame (fst s) dt video) as (_ & -> & -> & _). exact Hx.
  - destruct (readClock_frame (fst s) dt video) as (_ & _ & -> & _).
    apply phase_Waiting in Hp as [-> _]. reflexivity.
  - exact Hx.
  - reflexivity.
Qed.

(** X5 (the flags exclude each other).  In every state reached from
    [start] the quiz is never both shown and completed: [quizShown] holds
    exactly in the Active phase and [quizCompleted] exactly in the
    Completed phase. *)
Theorem flags_exclusive p (sc : Scene) w0 es :
  let this := fst (run (start p sc w0) es) in
  quizShown this && quizCompleted this = false
  /\ (quizShown this = true <-> phase this = Active)
  /\ (quizCompleted this = true <-> phase this = Completed).
Proof.
  cbv zeta.
  assert (quizShown (fst (run (start p sc w0) es))
          && quizCompleted (fst (run (start p sc w0) es)) = false) as Hx.
  { induction es as [|e es IH] using rev_ind; [reflexivity|].
    rewrite run_snoc. apply step_exclusive, IH. }
  split; [exact Hx|]. unfold phase.
  destruct (quizShown _), (quizCompleted _); simpl in Hx;
    try discriminate; split; split; congruence.
Qed.

(** X6 (the world is untouched while Waiting).  If the phase is still
    Waiting after a run, then no step of the run changed the world: no
    flag, no text, no listener, no call.  Ticks before the trigger only
    move the fallback clock. *)
Theorem waiting_world_untouched s es :
  phase (fst (run s es)) = Waiting ->
  snd (run s es) = snd s
  /\ props (fst (run s es)) = props (fst s)
  /\ phase (fst s) = Waiting.
Proof.
  induction es as [|e es IH] using rev_ind; intros Hw; [auto|].
  rewrite run_snoc in *.
  assert (phase (fst (run s es)) = Waiting) as Hw0.
  { pose proof (step_rank (run s es) e) as Hr. rewrite Hw in Hr.
    destruct (phase (fst (run s es))); simpl in Hr; [reflexivity | lia | lia]. }
  destruct (IH Hw0) as (Hs & Hp & H0).
  destruct (step_bindings (run s es) e) as (Hp' & _).
  split; [|split; [congruence | exact H0]].
  rewrite <- Hs.
  destruct (step_cases (run s es) e)
    as [-> | [(_ & dt & video & _ & [[_ ->] | [_ He]])
            | (Ha & _)]]; try reflexivity.
  - exfalso. rewrite He in Hw. simpl in Hw.
    destruct (readClock_frame (fst (run s es)) dt video) as (_ & _ & Hc & _).
    apply phase_Waiting in Hw as [_ Hsh]. simpl in Hsh. discriminate.
  - congruence.
Qed.

End Runs.

(** ** Calls, frames and answers *)

Section Calls.

Context {num : Type} `{Num num}.

Implicit Types (this : QuizAtTime num) (p : Properties num) (w : World).
Implicit Types (s : QuizAtTime num * World) (e : Event num) (es : list (Event num)).

Lemma haveVideo_None this (video : option (Video num)) :
  videoComponent this = None -> haveVideo this video = false.
Proof. unfold haveVideo. intros ->. reflexivity. Qed.

Lemma mediaLog_step c0 s e :
  audioSource (fst s) = None -> mediaLog c0 s -> mediaLog c0 (step s e).
Proof.
  intros Hau (paused & played & Hc & Hw & Hnc & Hnv). unfold mediaLog.
  destruct (step_bindings s e) as (_ & Hvc & _).
  destruct (step_cases s e)
    as [-> | [(Hp & dt & video & -> & [[Hge Hs] | [Hge Hs]])
            | (Hp & answer & video & -> & [[Hne Hs] | [Heq Hs]])]].
  - exists paused, played. auto.
  - assert (phase (fst (readClock (fst s) dt video)) = Waiting) as Hq.
    { destruct (readClock_frame (fst s) dt video) as (_ & Hsh & Hco & _).
      apply phase_Waiting in Hp as [Hc0 Hs0].
      apply phase_Waiting. split; congruence. }
    exists paused, played. rewrite Hs in *. cbn [fst snd] in *.
    split; [exact Hc|]. split; [auto|]. split; [intros _; apply Hnc; congruence|].
    intros Hv. apply Hnv. congruence.
  - rewrite Hs in *. cbn [fst snd] in *.
    rewrite (Hw Hp), (Hnc ltac:(congruence)) in Hc. simpl in Hc.
    exists (haveVideo (fst s) video), false.
    rewrite reveal_calls, Hc. split; [reflexivity|].
    split.
    { intros Hq. apply phase_Waiting in Hq as [_ Hq]. simpl in Hq. discriminate. }
    split; [reflexivity|].
    intros Hv. split; [|reflexivity]. apply haveVideo_None. congruence.
  - rewrite Hs in *. cbn [fst snd] in *.
    exists paused, played. unfold retry.
    rewrite (proj2 (showFeedback_frame _ _ _)).
    split; [exact Hc|]. auto.
  - rewrite Hs in *. cbn [fst snd] in *.
    rewrite (Hnc ltac:(congruence)) in Hc. simpl in Hc.
    exists paused, (haveVideo (fst s) video).
    rewrite succeed_calls, Hau, Hc. simpl.
    split; [reflexivity|].
    split.
    { intros Hq. apply phase_Waiting in Hq as [Hq _]. simpl in Hq. discriminate. }
    split.
    { intros Hq. exfalso. apply Hq. apply phase_Completed. reflexivity. }
    intros Hv. simpl in Hv. split; [apply Hnv, Hv | apply haveVideo_None, Hv].
Qed.

(** X7 (media calls).  Along every run from [start] the calls made after
    the warnings of [start] are at most one [pause] followed by at most
    one [play]: nothing while Waiting, no [play] before the quiz is
    completed, and nothing at all when the video object has no
    video-texture component.  [audioSource.play] is never called. *)
Theorem media_calls p (sc : Scene) w0 es :
  mediaLog (unboundWarnings p ++ calls w0) (run (start p sc w0) es).
Proof.
  induction es as [|e es IH] using rev_ind.
  - exists false, false. simpl app.
    split; [apply start_calls|].
    split; [reflexivity|]. split; [reflexivity|]. intros _. split; reflexivity.
  - rewrite run_snoc. apply mediaLog_step; [|exact IH].
    apply (inv_audio _ _ (invariant_run p sc w0 es)).
Qed.

End Calls.

Section Frames.

Context {num : Type} `{Num num}.

Implicit Types (this : QuizAtTime num) (p : Properties num) (w : World).
Implicit Types (s : QuizAtTime num * World) (e : Event num) (es : list (Event num)).

Lemma step_frame s e (o c : positive) :
  (~ bound (props (fst s)) o -> feedbackObject (props (fst s)) <> Some o ->
   active (snd (step s e)) !! o = active (snd s) !! o)
  /\ (feedbackText (fst s) <> Some c ->
      text (snd (step s e)) !! c = text (snd s) !! c).
Proof.
  destruct (step_cases s e)
    as [-> | [(_ & dt & video & _ & [[_ ->] | [_ ->]])
            | (_ & answer & video & _ & [[_ ->] | [_ ->]])]]; cbn [fst snd];
    try (split; reflexivity).
  - split.
    + intros Hb Hf. rewrite reveal_lookup.
      rewrite decide_False by exact Hf. rewrite decide_False by exact Hb. reflexivity.
    + intros Hc. rewrite reveal_text, showFeedback_text.
      destruct (feedbackObject _), (feedbackText (fst s)); try reflexivity.
      apply lookup_insert_ne. congruence.
  - split.
    + intros Hb Hf. unfold retry. rewrite showFeedback_lookup.
      rewrite decide_False by exact Hf. reflexivity.
    + intros Hc. unfold retry. rewrite showFeedback_text.
      destruct (feedbackObject _), (feedbackText (fst s)); try reflexivity.
      apply lookup_insert_ne. congruence.
  - split.
    + intros Hb Hf. rewrite succeed_lookup.
      rewrite decide_False by exact Hb. rewrite decide_False by exact Hf. reflexivity.
    + intros Hc. rewrite succeed_text, showFeedback_text.
      destruct (feedbackObject _), (feedbackText (fst s)); try reflexivity.
      apply lookup_insert_ne. congruence.
Qed.

(** X8 (nothing else is touched).  Along every run from [start], an
    object that is neither a bound button nor the feedback object keeps
    the [active] flag it had before [start], and a text component other
    than the one found on the feedback object keeps its text. *)
Theorem untouched_objects p (sc : Scene) w0 es (o c : positive) :
  let s := run (start p sc w0) es in
  (~ bound p o -> feedbackObject p <> Some o ->
   active (snd s) !! o = active w0 !! o)
  /\ (feedbackText (fst (start p sc w0)) <> Some c ->
      text (snd s) !! c = text w0 !! c).
Proof.
  cbv zeta. induction es as [|e es IH] using rev_ind.
  - change (run (start p sc w0) []) with (start p sc w0). split.
    + intros Hb Hf. rewrite start_active.
      rewrite decide_False by tauto. reflexivity.
    + intros _. rewrite start_text. reflexivity.
  - rewrite run_snoc.
    destruct (run_bindings (start p sc w0) es) as (Hp & _ & Ht & _).
    change (props (fst (start p sc w0))) with p in Hp.
    destruct (step_frame (run (start p sc w0) es) e o c) as [Ha Hx].
    rewrite Hp in Ha. rewrite Ht in Hx. destruct IH as [IHa IHx].
    split.
    + intros Hb Hf. rewrite Ha by assumption. auto.
    + intros Hc. rewrite Hx by assumption. auto.
Qed.

Lemma step_wrong s e :
  wrong (props (fst s)) e -> phase (fst s) <> Completed ->
  phase (fst (step s e)) <> Completed.
Proof.
  intros Hw Hp.
  destruct (step_cases s e)
    as [-> | [(Hq & dt & video & _ & [[_ ->] | [_ ->]])
            | (Hq & answer & video & -> & [[_ ->] | [He _]])]]; cbn [fst snd].
  - exact Hp.
  - destruct (readClock_frame (fst s) dt video) as (_ & _ & Hc & _).
    intros Hx. apply phase_Completed in Hx.
    apply phase_Waiting in Hq as [Hq _]. congruence.
  - destruct (readClock_frame (fst s) dt video) as (_ & _ & Hc & _).
    intros Hx. apply phase_Completed in Hx. simpl in Hx.
    apply phase_Waiting in Hq as [Hq _]. congruence.
  - exact Hp.
  - simpl in Hw. contradiction.
Qed.

(** X9 (only the configured answer completes).  A run made of ticks and
    of clicks whose labels all differ from [correctAnswer] never
    completes a quiz that was not completed before it. *)
Theorem wrong_answers_never_complete s es :
  Forall (wrong (props (fst s))) es ->
  phase (fst s) <> Completed ->
  phase (fst (run s es)) <> Completed.
Proof.
  intros Hall Hp. induction es as [|e es IH] using rev_ind; [exact Hp|].
  apply Forall_app in Hall as [Hes He]. apply Forall_inv in He.
  rewrite run_snoc. apply step_wrong; [|apply IH, Hes].
  rewrite (proj1 (run_bindings s es)). exact He.
Qed.

(** The listeners of one object, called one after the other. *)
Lemma run_clicks this w (video : option (Video num)) (ls : list string) :
  phase this = Active ->
  phase (fst (run (this, w) (clicks video ls)))
  = if bool_decide (correctAnswer (props this) ∈ ls) then Completed else Active.
Proof.
  intros Hp. revert w. induction ls as [|a ls IH]; intros w.
  - rewrite bool_decide_eq_false_2 by apply not_elem_of_nil. exact Hp.
  - change (run (this, w) (clicks video (a :: ls)))
      with (run (_onAnswer this w a video) (clicks video ls)).
    destruct (decide (a = correctAnswer (props this))) as [He|He].
    + rewrite run_Completed.
      * rewrite onAnswer_phase by exact Hp. rewrite He, String.eqb_refl.
        rewrite bool_decide_eq_true_2 by apply list_elem_of_here. reflexivity.
      * rewrite onAnswer_phase by exact Hp. rewrite He, String.eqb_refl. reflexivity.
    + rewrite onAnswer_retry by assumption. rewrite IH.
      rewrite (bool_decide_ext (correctAnswer (props this) ∈ a :: ls)
                 (correctAnswer (props this) ∈ ls)); [reflexivity|].
      rewrite elem_of_cons. intuition congruence.
Qed.

(** X10 (a click on a button).  Take an object that had no click target
    before [start].  In every state reached from [start], whatever the
    phase, its listeners are those of the slots it is bound to; and when
    the quiz is Active, calling them, in any order, completes the quiz
    exactly when one of these slots carries [correctAnswer], and
    otherwise leaves it Active. *)
Theorem click_completes p (sc : Scene) w0 es (o : positive)
    (video : option (Video num)) (ls : list string) :
  let s := run (start p sc w0) es in
  bound p o ->
  listeners w0 !! o = None ->
  listeners (snd s) !! o = Some (labelsOf p o)
  /\ (phase (fst s) = Active ->
      ls ≡ₚ labelsOf p o ->
      phase (fst (run s (clicks video ls)))
      = if bool_decide (correctAnswer p ∈ labelsOf p o) then Completed else Active).
Proof.
  intros s Hb Hl. split.
  - unfold s. rewrite run_listeners, start_listeners.
    rewrite decide_True by exact Hb. rewrite Hl. reflexivity.
  - intros Hp Hperm. destruct s as [this w] eqn:Hs.
    assert (props this = p) as Hpr.
    { pose proof (proj1 (run_bindings (start p sc w0) es)) as Hx.
      fold s in Hx. rewrite Hs in Hx. exact Hx. }
    rewrite run_clicks by exact Hp. rewrite Hpr.
    rewrite (bool_decide_ext (correctAnswer p ∈ ls) (correctAnswer p ∈ labelsOf p o));
      [reflexivity|].
    rewrite Hperm. reflexivity.
Qed.

End Frames.

(** ** The video as the clock, and the feedback label *)

Section External.

Context {num : Type} `{Num num}.

Implicit Types (this : QuizAtTime num) (p : Properties num) (w : World).
Implicit Types (ts : list (num * option (Video num))).

Lemma haveVideo_Some this (v : Video num) :
  is_Some (videoComponent this) -> haveVideo this (Some v) = true.
Proof. unfold haveVideo. intros [c ->]. reflexivity. Qed.

Lemma run_early this w ts :
  phase this = Waiting -> is_Some (videoComponent this) ->
  Forall (early this) ts ->
  run (this, w) (tick <$> ts) = (this, w).
Proof.
  intros Hp Hvc Hall.
  induction Hall as [|[dt video] ts (v & Hv & Hge) Hall IH]; [reflexivity|].
  simpl in Hv. subst video.
  change (run (this, w) (tick <$> (dt, Some v) :: ts))
    with (run (update this w dt (Some v)) (tick <$> ts)).
  destruct (readClock_external this dt (Some v) (haveVideo_Some this v Hvc))
    as (v' & [= <-] & Hr).
  rewrite update_wait; rewrite ?Hr; simpl; assumption.
Qed.

(** X11 (the video as the clock).  While a video is loaded on the bound
    video component, a tick that finds it short of [quizTime] changes
    nothing at all: the delta is ignored and the fallback clock stays
    where it was.  The first tick that finds it at or past [quizTime]
    shows the quiz and pauses the video, and the ticks after it change
    nothing more. *)
Theorem external_clock this w ts1 (dt : num) (v : Video num) ts2 :
  phase this = Waiting ->
  is_Some (videoComponent this) ->
  Forall (early this) ts1 ->
  fge (currentTime v) (quizTime (props this)) = true ->
  run (this, w) (tick <$> ts1) = (this, w)
  /\ run (this, w) (tick <$> ts1 ++ (dt, Some v) :: ts2)
     = (set_quizShown true this, reveal this (Some v) w)
  /\ calls (reveal this (Some v) w) = VideoPause :: calls w.
Proof.
  intros Hp Hvc Hall Hge.
  pose proof (run_early this w ts1 Hp Hvc Hall) as Hrun.
  split; [exact Hrun|]. split.
  - rewrite fmap_app, run_app, Hrun.
    change (run (this, w) (tick <$> (dt, Some v) :: ts2))
      with (run (update this w dt (Some v)) (tick <$> ts2)).
    destruct (readClock_external this dt (Some v) (haveVideo_Some this v Hvc))
      as (v' & [= <-] & Hr).
    rewrite update_reveal; rewrite ?Hr; simpl; try assumption.
    apply run_ticks_later.
    apply phase_Waiting in Hp as [Hc _].
    unfold phase. simpl. rewrite Hc. discriminate.
  - rewrite reveal_calls, (haveVideo_Some this v Hvc). reflexivity.
Qed.

(** X12 (the feedback label).  When the quiz is revealed the feedback
    object is shown and its text component, if it has one, is emptied.
    When the configured answer is clicked the text becomes the success
    message, and the feedback object stays shown unless it is itself one
    of the bound buttons: it is then hidden with them, message
    included. *)
Theorem feedback_label this w (fo : positive) :
  feedbackObject (props this) = Some fo ->
  (forall dt video,
     phase this = Waiting ->
     fge (snd (readClock this dt video)) (quizTime (props this)) = true ->
     let s' := update this w dt video in
     active (snd s') !! fo = Some true
     /\ forall tc, feedbackText this = Some tc -> text (snd s') !! tc = Some "")
  /\ (forall answer video,
        phase this = Active -> answer = correctAnswer (props this) ->
        let s' := _onAnswer this w answer video in
        active (snd s') !! fo = Some (negb (bool_decide (bound (props this) fo)))
        /\ forall tc, feedbackText this = Some tc ->
                      text (snd s') !! tc = Some "CORRECT!!!").
Proof.
  intros Hfo. split.
  - intros dt video Hp Hge s'. unfold s'.
    rewrite update_reveal by assumption. cbn [snd]. split.
    + rewrite reveal_lookup. rewrite decide_True by exact Hfo. reflexivity.
    + intros tc Htc. rewrite reveal_text, showFeedback_text, Hfo, Htc.
      apply lookup_insert_eq.
  - intros answer video Hp He s'. unfold s'.
    rewrite onAnswer_succeed by assumption. cbn [snd]. split.
    + rewrite succeed_lookup. case_decide as Hb.
      * rewrite bool_decide_eq_true_2 by exact Hb. reflexivity.
      * rewrite bool_decide_eq_false_2 by exact Hb.
        rewrite decide_True by exact Hfo. reflexivity.
    + intros tc Htc. rewrite succeed_text, showFeedback_text, Hfo, Htc.
      apply lookup_insert_eq.
Qed.

End External.

(** ** The further properties on the concrete sessions *)

(** The wiring of the alias session: object 5 gets the listeners of
    slots A and B, slot C is warned about, and everything starts hidden. *)
Example alias_wiring :
  listeners (snd aliasStart) !! 5%positive = Some ["A"; "B"]
  /\ listeners (snd aliasStart) !! 2%positive = None
  /\ calls (snd aliasStart) = [Warn "C"]
  /\ active (snd aliasStart) !! 5%positive = Some false.
Proof. vm_compute. repeat split. Qed.

(** X6, in the demo session: two ticks of one second leave the world as
    [start] left it. *)
Lemma waiting_world_untouched_witness :
  phase (fst (run demoStart (tick <$> take 2 demoTicks))) = Waiting
  /\ snd (run demoStart (tick <$> take 2 demoTicks)) = snd demoStart.
Proof.
  assert (phase (fst (run demoStart (tick <$> take 2 demoTicks))) = Waiting) as Hw
    by reflexivity.
  split; [exact Hw|].
  exact (proj1 (waiting_world_untouched demoStart (tick <$> take 2 demoTicks) Hw)).
Defined.

(** X9, in the demo session: ticks and the answers B and C only. *)
Lemma wrong_answers_never_complete_witness :
  phase (fst demoStart) <> Completed
  /\ phase (fst (run demoStart
                   ((tick <$> demoTicks) ++ [Click "B" None; Click "C" None])))
     <> Completed.
Proof.
  assert (phase (fst demoStart) <> Completed) as Hp by discriminate.
  split; [exact Hp|].
  apply (wrong_answers_never_complete demoStart); [|exact Hp].
  repeat (apply Forall_cons; split; [first [exact I | discriminate]|]).
  apply Forall_nil_2.
Defined.

(** X10, in the alias session: object 5 carries the listeners of slots A
    and B, right after [start] as well as once the quiz is shown; called
    in the order B, A they complete the quiz, whose answer is B. *)
Lemma click_completes_witness :
  bound aliasProps 5%positive
  /\ listeners (snd (run (start aliasProps demoScene emptyWorld) [])) !! 5%positive
     = Some ["A"; "B"]
  /\ listeners (snd (run (start aliasProps demoScene emptyWorld) (tick <$> demoTicks)))
       !! 5%positive
     = Some ["A"; "B"]
  /\ phase (fst (run (run (start aliasProps demoScene emptyWorld) (tick <$> demoTicks))
                     (clicks None ["B"; "A"])))
     = Completed.
Proof.
  assert (bound aliasProps 5%positive) as Hb by (left; reflexivity).
  assert (phase (fst (run (start aliasProps demoScene emptyWorld) (tick <$> demoTicks)))
          = Active) as Hp by reflexivity.
  assert (["B"; "A"] ≡ₚ labelsOf aliasProps 5%positive) as Hperm by apply perm_swap.
  destruct (click_completes aliasProps demoScene emptyWorld [] 5%positive None
              ["B"; "A"] Hb eq_refl) as [Hl0 _].
  destruct (click_completes aliasProps demoScene emptyWorld (tick <$> demoTicks)
              5%positive None ["B"; "A"] Hb eq_refl) as [Hl Hc].
  split; [exact Hb|]. split; [exact Hl0|]. split; [exact Hl | exact (Hc Hp Hperm)].
Defined.

(** X11, in the demo session with the video loaded: nothing happens at
    1 s and 2.5 s; at 3.5 s the quiz is shown and the video paused. *)
Lemma external_clock_witness :
  run demoStart (tick <$> take 2 videoTicks) = demoStart
  /\ phase (fst (run demoStart (tick <$> videoTicks))) = Active
  /\ elapsed (fst (run demoStart (tick <$> videoTicks))) = 0%float
  /\ calls (snd (run demoStart (tick <$> videoTicks))) = [VideoPause].
Proof.
  assert (phase (fst demoStart) = Waiting) as Hp by reflexivity.
  assert (is_Some (videoComponent (fst demoStart))) as Hvc by (eexists; reflexivity).
  assert (Forall (early (fst demoStart)) (take 2 videoTicks)) as Hall.
  { repeat (apply Forall_cons; split; [eexists; split; reflexivity|]).
    apply Forall_nil_2. }
  destruct (external_clock (fst demoStart) (snd demoStart) (take 2 videoTicks)
              0.5%float {| currentTime := 3.5%float |}
              [(0.5%float, Some {| currentTime := 3.5%float |})]
              Hp Hvc Hall eq_refl) as (H1 & H2 & H3).
  split; [exact H1|].
  change (tick <$> videoTicks)
    with (tick <$> take 2 videoTicks
                   ++ (0.5%float, Some {| currentTime := 3.5%float |})
                   :: [(0.5%float, Some {| currentTime := 3.5%float |})]).
  change (run demoStart) with (run (fst demoStart, snd demoStart)).
  rewrite H2. cbn [fst snd]. split; [reflexivity|]. split; [reflexivity|].
  rewrite H3. reflexivity.
Defined.

(** X12, in the alias session: the feedback object is also a button, so
    the right answer hides it together with its success message. *)
Lemma feedback_label_witness :
  let s := run aliasStart (tick <$> demoTicks) in
  let s' := _onAnswer (fst s) (snd s) "B" None in
  feedbackObject (props (fst s)) = Some 5%positive
  /\ active (snd s) !! 5%positive = Some true
  /\ active (snd s') !! 5%positive = Some false
  /\ text (snd s') !! 11%positive = Some "CORRECT!!!".
Proof.
  cbv zeta.
  assert (feedbackObject (props (fst (run aliasStart (tick <$> demoTicks))))
          = Some 5%positive) as Hfo by reflexivity.
  destruct (feedback_label (fst (run aliasStart (tick <$> demoTicks)))
              (snd (run aliasStart (tick <$> demoTicks))) 5%positive Hfo)
    as [_ Hsucc].
  destruct (Hsucc "B" None eq_refl eq_refl) as [Ha Ht].
  split; [exact Hfo|]. split; [reflexivity|].
  split; [exact Ha | exact (Ht 11%positive eq_refl)].
Defined.
